(** * Job orchestration layer of Revu: scrape lock, rate limiter, job status
    protocol and cooperative cancellation.

    Shallow embedding of
    - [src/backend/app/routes/fetch_review_job.py]
      ([start_scrape], [scrape_status], [cancel_scrape],
      [scrape_lock_status]), and
    - [src/backend/app/worker.py]
      (the lock reinforcement at the start of [run_scraper_task], its
      checkpoint closures [_do_cancel] and [_update], its failure handlers
      and owner-checked lock release, the theme de-duplication and
      [_truncate_name]).

    The Redis coordination store is a [gmap] from key to (value, TTL).  Every
    store call, Celery call and the lazy [from app.worker import celery_app]
    may raise; which ones do is given by a fault oracle [fails] of the
    environment.  Python exceptions are the error channel of a small
    reader/state/error monad. *)

From stdpp Require Import base gmap sets strings list.
From Stdlib Require Import ZArith Ascii.

Open Scope string_scope.
Open Scope Z_scope.
Set Warnings "-register-all".

(** ** JSON values (what [json.dumps] writes and [json.loads] reads back).
    Numbers are integers: the program only ever serialises integers. *)
Inductive json :=
| JNull
| JBool (b : bool)
| JNum (z : Z)
| JStr (s : string)
| JArr (l : list json)
| JObj (fields : list (string * json)).

(** Python truthiness of a JSON value. *)
Definition json_truthy (j : json) : bool :=
  match j with
  | JNull => false
  | JBool b => b
  | JNum z => negb (z =? 0)
  | JStr s => negb (String.eqb s "")
  | JArr l => negb (length l =? 0)%nat
  | JObj f => negb (length f =? 0)%nat
  end.

Fixpoint assoc (k : string) (f : list (string * json)) : option json :=
  match f with
  | [] => None
  | (k', v) :: f' => if String.eqb k k' then Some v else assoc k f'
  end.

(** ** Python exceptions raised along the modelled paths. *)
Inductive op :=
| OGet (k : string)
| OSet (k : string)
| ODel (k : string)
| OExists (k : string)
| OIncr (k : string)
| OTtl (k : string)
| OExpire (k : string)
| OImportWorker            (* from app.worker import celery_app *)
| OSendTask                (* celery_app.send_task(...) *)
| OAsyncResult (k : string)  (* AsyncResult(job_id, app=celery_app) *)
| ORevoke (k : string)     (* AsyncResult(...).revoke(terminate=False) *)
| OUpdateState (k : string). (* self.update_state(...) in the worker *)

Inductive exn :=
| RedisError (o : op)          (* a failed store / Celery call *)
| HTTPException (code : Z)
| AttributeError               (* [.get] on a JSON value that is not a dict *)
| ValueError (msg : string)    (* raised inside Celery, see [update_state] *)
| PyException (msg : string).  (* raise Exception(msg) *)

(** [dict.get(k, default)]: a dict answers, anything else raises. *)
Definition jget (j : json) (k : string) (default : json) : exn + json :=
  match j with
  | JObj f => inr (match assoc k f with Some v => v | None => default end)
  | _ => inl AttributeError
  end.

(** ** Store values.  With [decode_responses=True] Redis hands back strings;
    [VJson j] is the text [json.dumps(j)] (so [json.loads] returns [j]),
    [VInt] an INCR counter, [VStr s] any other text (the literal ["1"] of the
    lock and cancel keys, task ids); those are never passed to [json.loads]
    by the program, which only parses the meta and result keys. *)
Inductive val :=
| VStr (s : string)
| VInt (z : Z)
| VJson (j : json).

Definition val_truthy (v : val) : bool :=
  match v with
  | VStr s => negb (String.eqb s "")
  | VInt _ => true
  | VJson _ => true   (* json.dumps never yields the empty string *)
  end.

(** [json.loads] on the text of a value; [None] when it raises. *)
Definition json_loads (v : val) : option json :=
  match v with
  | VJson j => Some j
  | VInt z => Some (JNum z)   (* decimal text of the counter *)
  | VStr _ => None
  end.

(** A store entry: value and remaining TTL in seconds ([None]: no expiry). *)
Abbreviation entry := (val * option Z)%type.

(** Native Celery status of a task, as [AsyncResult] reports it. *)
Inductive ninfo :=
| NIJson (j : json)        (* a stored Python value; [NIJson JNull] is None *)
| NIExc (msg : string).    (* an exception instance (truthy) *)

Record native := mkNative {
  n_state : option string;   (* None: reading [.state] raised *)
  n_info : option ninfo      (* None: reading [.info] raised *)
}.

Record world := mkWorld {
  kv : gmap string entry;
  submitted : list string;                 (* task ids sent to Celery *)
  celery : gmap string (string * json)     (* Celery result backend: state and
                                              meta stored per task id *)
}.

Record env := mkEnv {
  fails : op -> bool;
  new_task_id : string;                    (* id Celery assigns on send *)
  native_of : string -> native
}.

(** ** The monad: environment, world, Python exceptions. *)
Inductive result (A : Type) :=
| Ok (a : A)
| Exc (e : exn).
Arguments Ok {A} a.
Arguments Exc {A} e.

Definition M (A : Type) : Type := env -> world -> world * result A.

Definition ret {A} (a : A) : M A := fun _ w => (w, Ok a).
Definition raise {A} (e : exn) : M A := fun _ w => (w, Exc e).
Definition bindM {A B} (m : M A) (k : A -> M B) : M B :=
  fun E w => match m E w with
             | (w', Ok a) => k a E w'
             | (w', Exc e) => (w', Exc e)
             end.
(** [try: m except Exception as e: h(e)]. *)
Definition try_except {A} (m : M A) (h : exn -> M A) : M A :=
  fun E w => match m E w with
             | (w', Ok a) => (w', Ok a)
             | (w', Exc e) => h e E w'
             end.
(** [try: m except Exception: pass]. *)
Definition try_pass (m : M unit) : M unit := try_except m (fun _ => ret tt).

Notation "'let!' x ':=' m 'in' k" := (bindM m (fun x => k))
  (at level 200, x name, m at level 100, k at level 200).
Notation "m ';;!' k" := (bindM m (fun _ => k))
  (at level 100, right associativity).

Definition lift {A} (r : exn + A) : M A :=
  match r with inl e => raise e | inr a => ret a end.

(** A call that fails when the oracle says so, leaving the world as is. *)
Definition guarded {A} (o : op) (m : M A) : M A :=
  fun E w => if fails E o then (w, Exc (RedisError o)) else m E w.

(** ** Redis commands (redis-py, [decode_responses=True]). *)
Definition with_kv (w : world) (m : gmap string entry) : world :=
  mkWorld m (submitted w) (celery w).

(** GET *)
Definition r_get (k : string) : M (option val) :=
  guarded (OGet k) (fun _ w => (w, Ok (fst <$> kv w !! k))).

(** SET k v [EX ex] [NX]; a plain SET drops any previous TTL. *)
Definition r_set (k : string) (v : val) (ex : option Z) (nx : bool) : M bool :=
  guarded (OSet k) (fun _ w =>
    if nx && bool_decide (is_Some (kv w !! k)) then (w, Ok false)
    else (with_kv w (<[k := (v, ex)]> (kv w)), Ok true)).

(** DEL *)
Definition r_delete (k : string) : M unit :=
  guarded (ODel k) (fun _ w => (with_kv w (delete k (kv w)), Ok tt)).

(** EXISTS *)
Definition r_exists (k : string) : M bool :=
  guarded (OExists k) (fun _ w => (w, Ok (bool_decide (is_Some (kv w !! k))))).

(** INCR: a missing key counts from 0 and gets no TTL; the TTL of an existing
    key is kept.  The program only INCRs the rate keys, which hold counters;
    INCR on any other value is Redis's "value is not an integer" error. *)
Definition r_incr (k : string) : M Z :=
  guarded (OIncr k) (fun _ w =>
    match kv w !! k with
    | None => (with_kv w (<[k := (VInt 1, None)]> (kv w)), Ok 1)
    | Some (VInt z, t) => (with_kv w (<[k := (VInt (z + 1), t)]> (kv w)), Ok (z + 1))
    | Some _ => (w, Exc (RedisError (OIncr k)))
    end).

(** TTL: -2 for a missing key, -1 for a key without expiry. *)
Definition r_ttl (k : string) : M Z :=
  guarded (OTtl k) (fun _ w =>
    match kv w !! k with
    | None => (w, Ok (-2))
    | Some (_, None) => (w, Ok (-1))
    | Some (_, Some t) => (w, Ok t)
    end).

(** EXPIRE: only an existing key is touched; a positive TTL is set, and a
    TTL of 0 or less deletes the key (and the call still answers 1). *)
Definition r_expire (k : string) (t : Z) : M bool :=
  guarded (OExpire k) (fun _ w =>
    match kv w !! k with
    | None => (w, Ok false)
    | Some (v, _) =>
        if t <=? 0 then (with_kv w (delete k (kv w)), Ok true)
        else (with_kv w (<[k := (v, Some t)]> (kv w)), Ok true)
    end).

(** ** Celery. *)
Definition import_worker : M unit := guarded OImportWorker (ret tt).

Definition send_task : M string :=
  guarded OSendTask (fun E w =>
    (mkWorld (kv w) (submitted w ++ [new_task_id E]) (celery w), Ok (new_task_id E))).

Definition revoke (j : string) : M unit := guarded (ORevoke j) (ret tt).

Definition async_result (j : string) : M native :=
  guarded (OAsyncResult j) (fun E w => (w, Ok (native_of E j))).

(** [states.EXCEPTION_STATES]. *)
Definition exception_state (st : string) : bool :=
  String.eqb st "RETRY" || String.eqb st "FAILURE" || String.eqb st "REVOKED".

(** Whether the backend can decode a stored (state, meta): in an exception
    state [meta_from_decoded] calls [exception_to_python] on the meta, which
    gives None for an empty value and rebuilds an exception from a dict that
    names its [exc_type] (what Celery itself stores for an exception), and
    raises ValueError on a dict without [exc_type].  Other non-empty values
    are counted as undecodable as well; neither the program nor Celery
    stores one in an exception state. *)
Definition celery_decodable (st : string) (meta : json) : bool :=
  negb (exception_state st) || negb (json_truthy meta) ||
  match meta with
  | JObj f => bool_decide (is_Some (assoc "exc_type" f))
  | _ => false
  end.

(** [self.update_state(state=st, meta=meta)] with the Redis result backend
    (Celery 5): [_store_result] first reads and decodes the task's stored
    meta, so the call raises when that meta cannot be decoded; a stored
    SUCCESS is never overwritten (the call returns without writing);
    otherwise [(st, meta)] is stored. *)
Definition update_state (tid st : string) (meta : json) : M unit :=
  guarded (OUpdateState tid) (fun _ w =>
    let write := (mkWorld (kv w) (submitted w) (<[tid := (st, meta)]> (celery w)), Ok tt) in
    match celery w !! tid with
    | Some (cur, m) =>
        if negb (celery_decodable cur m)
        then (w, Exc (ValueError "Exception information must include the exception type"))
        else if String.eqb cur "SUCCESS" then (w, Ok tt)
        else write
    | None => write
    end).

(** ** Key layout (API router and worker agree on it). *)
Definition LOCK_KEY : string := "revu:scrape:lock".
Definition LOCK_TASK_KEY : string := LOCK_KEY +:+ ":task".
Definition meta_key (j : string) : string := "revu:task:" +:+ j +:+ ":meta".
Definition result_key (j : string) : string := "revu:task:" +:+ j +:+ ":result".
Definition cancel_key (j : string) : string := "revu:task:" +:+ j +:+ ":cancel".
Definition owner_key (j : string) : string := "revu:task:" +:+ j +:+ ":owner".
Definition url_key (j : string) : string := "revu:task:" +:+ j +:+ ":url".
Definition rate_key (user day : string) : string :=
  "revu:rate:" +:+ user +:+ ":" +:+ day.

(** API router: [LOCK_TTL = 60 * 60]. *)
Definition LOCK_TTL : Z := 60 * 60.
(** Retention of meta/result keys: [ex=60 * 60 * 24]. *)
Definition META_TTL : Z := 60 * 60 * 24.

(** Envelopes written to the meta key. *)
Definition revoked_env (pct : Z) : json :=
  JObj [("state", JStr "REVOKED"); ("progress", JNum pct);
        ("error", JStr "cancelled by user")].
Definition progress_env (pct : Z) : json :=
  JObj [("state", JStr "PROGRESS"); ("progress", JNum pct)].
Definition success_env : json :=
  JObj [("state", JStr "SUCCESS"); ("progress", JNum 100)].

Definition is_jstr (j : json) (s : string) : bool :=
  match j with JStr t => String.eqb t s | _ => false end.

Definition opt_truthy (o : option val) : bool :=
  match o with Some v => val_truthy v | None => false end.

(** [owner == task_id] on the string read back from the owner key. *)
Definition owner_is (o : option val) (tid : string) : bool :=
  match o with Some (VStr s) => String.eqb s tid | _ => false end.

(** [redis_client.delete(LOCK_KEY); redis_client.delete(f"{LOCK_KEY}:task")]
    inside [try: ... except Exception: pass], with no owner check: the shape
    of every lock release in the API router. *)
Definition release_lock_unchecked : M unit :=
  try_pass (r_delete LOCK_KEY ;;! r_delete LOCK_TASK_KEY).

(** ** API router: [start_scrape]. *)

(** [int((tomorrow - now).total_seconds())] for [now] at [now_us]
    microseconds after UTC midnight ([0 <= now_us < 86400 * 10^6]):
    [total_seconds()] is [(86400 * 10^6 - now_us) / 10^6], exact to far
    below a microsecond at this magnitude, and [int] truncates it.  It is 0
    in the last partial second of the day. *)
Definition ttl_to_midnight (now_us : Z) : Z := (86400 * 1000000 - now_us) / 1000000.

(** The per-user daily rate check.  [limit] is [DAILY_SCRAPE_LIMIT]; [day]
    is [now.strftime("%Y%m%d")] in UTC and [now_us] the microseconds of
    [now] since UTC midnight. *)
Definition rate_check (limit : Z) (user day : string) (now_us : Z) : M unit :=
  if (limit >? 0) then
    try_except (
      let rk := rate_key user day in
      let! new_count := r_incr rk in
      let! ttl_remaining :=
        try_except (let! t := r_ttl rk in ret (Some t)) (fun _ => ret None) in
      (if (new_count =? 1) ||
          match ttl_remaining with Some t => t <? 0 | None => false end
       then try_pass (r_expire rk (ttl_to_midnight now_us) ;;! ret tt)
       else ret tt) ;;!
      (if new_count >? limit then raise (HTTPException 429) else ret tt))
      (fun e => match e with
                | HTTPException _ => raise e     (* except HTTPException: raise *)
                | _ => ret tt                    (* except Exception: pass *)
                end)
  else ret tt.

(** Lock acquisition and submission (lines 80-96). *)
Definition lock_and_submit : M string :=
  let! locked := r_set LOCK_KEY (VStr "1") (Some LOCK_TTL) true in
  if negb locked then raise (HTTPException 409) else
  try_except import_worker
    (fun _ => r_delete LOCK_KEY ;;! r_delete LOCK_TASK_KEY ;;!
              raise (HTTPException 500)) ;;!
  try_except
    (let! tid := send_task in
     r_set LOCK_TASK_KEY (VStr tid) (Some LOCK_TTL) false ;;!
     ret tid)
    (fun _ => r_delete LOCK_KEY ;;! r_delete LOCK_TASK_KEY ;;!
              raise (HTTPException 500)).

(** [start_scrape] answers [StartScrapeResponse(job_id=task.id)]. *)
Definition start_scrape (limit : Z) (user day : string) (now_us : Z) : M string :=
  rate_check limit user day now_us ;;! lock_and_submit.

(** ** API router: [scrape_status]. *)

(** The [error] field: a JSON value read from a dict, or [str(info)]. *)
Inductive err_field :=
| ErrNone
| ErrJson (j : json)
| ErrStrOf (i : ninfo).

(** The keyword arguments [scrape_status] passes to [ScrapeStatusResponse]
    (before pydantic validates and coerces them: [result] into
    [SingleReview]s, [product] into a [ProductMeta]). *)
Record status_resp := mkStatus {
  sr_job_id : string;
  sr_state : string;
  sr_progress : json;
  sr_result : json;
  sr_count : json;
  sr_product : json;
  sr_error : err_field
}.

(** Best-effort archive to MongoDB after a SUCCESS read.  The document
    store is outside the coordination store; only the two Redis reads the
    block performs are modelled, and any failure is swallowed. *)
Definition persist_result (j : string) (result : json) : M unit :=
  try_pass (if json_truthy result
            then r_get (owner_key j) ;;! r_get (url_key j) ;;! ret tt
            else ret tt).

Definition info_dict (i : ninfo) : option (list (string * json)) :=
  match i with NIJson (JObj f) => Some f | _ => None end.

Definition ninfo_truthy (i : ninfo) : bool :=
  match i with NIJson j => json_truthy j | NIExc _ => true end.

Definition dget (f : list (string * json)) (k : string) (d : json) : json :=
  match assoc k f with Some v => v | None => d end.

Definition is_terminal (st : string) : bool :=
  String.eqb st "SUCCESS" || String.eqb st "FAILURE" || String.eqb st "REVOKED".

(** [state = result.state], ["UNKNOWN"] when it raises. *)
Definition native_state (n : native) : string :=
  match n_state n with Some s => s | None => "UNKNOWN" end.

(** [info = result.info], [None] when it raises. *)
Definition native_info (n : native) : ninfo :=
  match n_info n with Some i => i | None => NIJson JNull end.

(** Fallback to Celery's native status (lines 219-273). *)
Definition status_fallback (j : string) : M status_resp :=
  try_except import_worker (fun _ => raise (HTTPException 500)) ;;!
  let! res := try_except (async_result j) (fun _ => raise (HTTPException 503)) in
  let st := native_state res in
  let info := native_info res in
  (if is_terminal st then release_lock_unchecked else ret tt) ;;!
  let progress := match info_dict info with
                  | Some f => dget f "progress" (JNum 0)
                  | None => JNum 0 end in
  match String.eqb st "SUCCESS", info_dict info with
  | true, Some f =>
      ret (mkStatus j st (JNum 100) (dget f "reviews" JNull)
             (dget f "count" JNull) (dget f "product" JNull) ErrNone)
  | _, _ =>
      if String.eqb st "FAILURE" then
        ret (mkStatus j st progress JNull JNull JNull
               (match info_dict info with
                | Some f => ErrJson (dget f "exc" JNull)
                | None => if ninfo_truthy info then ErrStrOf info else ErrNone
                end))
      else ret (mkStatus j st progress JNull JNull JNull ErrNone)
  end.

(** [result.get(k) if result else None]. *)
Definition get_if (result : json) (k : string) : M json :=
  if json_truthy result then lift (jget result k JNull) else ret JNull.

(** The SUCCESS branch of [scrape_status] (lines 111-177). *)
Definition status_success (j : string) : M status_resp :=
  let! result_raw := try_except (r_get (result_key j)) (fun _ => ret None) in
  let result := match result_raw with
                | Some v => if val_truthy v
                            then match json_loads v with Some r => r | None => JNull end
                            else JNull
                | None => JNull
                end in
  persist_result j result ;;!
  release_lock_unchecked ;;!
  let! rv := get_if result "reviews" in
  let! cnt := get_if result "count" in
  let! prod := get_if result "product" in
  ret (mkStatus j "SUCCESS" (JNum 100) rv cnt prod ErrNone).

(** The REVOKED and FAILURE branches (lines 188-217), identical up to the
    state they report. *)
Definition status_closed (st j : string) (meta : json) : M status_resp :=
  release_lock_unchecked ;;!
  let! p := lift (jget meta "progress" (JNum 0)) in
  let! e := lift (jget meta "error" JNull) in
  ret (mkStatus j st p JNull JNull JNull (ErrJson e)).

(** [json.loads(meta_raw)], or [{"error": meta_raw}] when it raises. *)
Definition parse_meta (v : val) : json :=
  match json_loads v with
  | Some m => m
  | None => JObj [("error", JStr (match v with VStr s => s | _ => "" end))]
  end.

Definition scrape_status (j : string) : M status_resp :=
  let! meta_raw :=
    try_except (r_get (meta_key j)) (fun _ => raise (HTTPException 503)) in
  match meta_raw with
  | Some v =>
    if val_truthy v then
      let meta := parse_meta v in
      let! state := lift (jget meta "state" JNull) in
      if is_jstr state "SUCCESS" then status_success j
      else if is_jstr state "PROGRESS" then
        let! p := lift (jget meta "progress" (JNum 0)) in
        ret (mkStatus j "PROGRESS" p JNull JNull JNull ErrNone)
      else if is_jstr state "REVOKED" then status_closed "REVOKED" j meta
      else if is_jstr state "FAILURE" then status_closed "FAILURE" j meta
      else status_fallback j
    else status_fallback j
  | None => status_fallback j
  end.

(** ** API router: [cancel_scrape]. *)

Record cancel_resp := mkCancel {
  cr_job_id : string;
  cr_cancel_requested : bool
}.

Fixpoint parse_digits (s : string) (acc : Z) : option Z :=
  match s with
  | EmptyString => Some acc
  | String c s' =>
      let n := Z.of_nat (Ascii.nat_of_ascii c) in
      if (48 <=? n) && (n <=? 57) then parse_digits s' (acc * 10 + (n - 48))
      else None
  end.

(** [int(s)] for a decimal literal with an optional sign.  (Python also
    strips surrounding blanks and accepts [_] separators; the meta key never
    holds a string progress, so those forms are left out.) *)
Definition parse_int (s : string) : option Z :=
  match s with
  | String "-"%char (String _ _ as r) => Z.opp <$> parse_digits r 0
  | String "+"%char (String _ _ as r) => parse_digits r 0
  | String _ _ => parse_digits s 0
  | EmptyString => None
  end.

(** [int(x)] on a JSON value; [None] when it raises. *)
Definition py_int (j : json) : option Z :=
  match j with
  | JNum z => Some z
  | JBool b => Some (if b then 1 else 0)
  | JStr s => parse_int s
  | _ => None
  end.

(** [prog = int(json.loads(prev_raw).get("progress", 0))], 0 on any error. *)
Definition prev_progress (v : val) : Z :=
  match json_loads v with
  | Some p => match jget p "progress" (JNum 0) with
              | inr x => match py_int x with Some z => z | None => 0 end
              | inl _ => 0
              end
  | None => 0
  end.

Definition cancel_scrape (j : string) : M cancel_resp :=
  try_except (r_set (cancel_key j) (VStr "1") (Some (60 * 60)) false ;;! ret tt)
             (fun _ => raise (HTTPException 503)) ;;!
  (* best-effort revoke *)
  try_pass (import_worker ;;! revoke j) ;;!
  (* optimistic REVOKED envelope, keeping the previous progress *)
  try_pass (
    let! prev_raw := r_get (meta_key j) in
    let prog := match prev_raw with
                | Some v => if val_truthy v then prev_progress v else 0
                | None => 0
                end in
    r_set (meta_key j) (VJson (revoked_env prog)) (Some META_TTL) false ;;!
    ret tt) ;;!
  (* proactive lock release *)
  release_lock_unchecked ;;!
  ret (mkCancel j true).

(** ** Worker ([run_scraper_task]).  [lock_ttl] is the worker's [LOCK_TTL],
    read from [SCRAPE_LOCK_TTL]; [tid] is [self.request.id]. *)

(** Lock reinforcement at task start (lines 86-93). *)
Definition reinforce_lock (lock_ttl : Z) (tid : string) : M unit :=
  try_pass (
    let! e := r_exists LOCK_KEY in
    (if e then ret tt
     else r_set LOCK_KEY (VStr "1") (Some lock_ttl) false ;;! ret tt) ;;!
    r_set LOCK_TASK_KEY (VStr tid) (Some lock_ttl) false ;;!
    ret tt).

(** [_do_cancel(pct)] (lines 97-120). *)
Definition do_cancel (tid : string) (pct : Z) : M unit :=
  try_pass (r_set (meta_key tid) (VJson (revoked_env pct)) (Some META_TTL) false ;;!
            ret tt) ;;!
  try_pass (let! owner := r_get LOCK_TASK_KEY in
            if owner_is owner tid
            then r_delete LOCK_KEY ;;! r_delete LOCK_TASK_KEY
            else ret tt) ;;!
  try_pass (update_state tid "REVOKED" (JObj [("exc", JStr "cancelled by user")])) ;;!
  raise (PyException "cancelled by user").

(** [_update(pct)], the progress checkpoint (lines 129-158). *)
Definition update_progress (lock_ttl : Z) (tid : string) (pct : Z) : M unit :=
  try_pass (let! c := r_get (cancel_key tid) in
            if opt_truthy c then do_cancel tid pct else ret tt) ;;!
  try_pass (update_state tid "PROGRESS" (JObj [("progress", JNum pct)])) ;;!
  try_pass (r_set (meta_key tid) (VJson (progress_env pct)) (Some META_TTL) false ;;!
            try_pass (r_expire LOCK_KEY lock_ttl ;;!
                      r_expire LOCK_TASK_KEY lock_ttl ;;! ret tt)).

(** ** Running a computation. *)
Definition run {A} (m : M A) (E : env) (w : world) : world * result A := m E w.

Definition no_faults : op -> bool := fun _ => false.

Definition fresh_native : string -> native :=
  fun _ => mkNative (Some "PENDING") (Some (NIJson JNull)).

Definition env0 : env := mkEnv no_faults "T2" fresh_native.

Definition w_of (m : gmap string entry) : world := mkWorld m [] ∅.

(** Lock held by task [B] (its owner key records B), job [A]'s meta says
    SUCCESS with a result payload. *)
Definition world_owned_by_B : world :=
  w_of (<[LOCK_KEY := (VStr "1", Some LOCK_TTL)]>
       (<[LOCK_TASK_KEY := (VStr "B", Some LOCK_TTL)]>
       (<[meta_key "A" := (VJson success_env, Some META_TTL)]> ∅))).

(** Task [T] holds the lock, its meta says PROGRESS 10, and the user has set
    its cancel flag. *)
Definition world_cancel_flagged : world :=
  w_of (<[cancel_key "T" := (VStr "1", Some 3600)]>
       (<[LOCK_KEY := (VStr "1", Some LOCK_TTL)]>
       (<[LOCK_TASK_KEY := (VStr "T", Some LOCK_TTL)]>
       (<[meta_key "T" := (VJson (progress_env 10), Some META_TTL)]> ∅)))).

(** Task [T] running and holding the lock, meta PROGRESS 10, no cancel yet. *)
Definition world_running_T : world :=
  w_of (<[LOCK_KEY := (VStr "1", Some LOCK_TTL)]>
       (<[LOCK_TASK_KEY := (VStr "T", Some LOCK_TTL)]>
       (<[meta_key "T" := (VJson (progress_env 10), Some META_TTL)]> ∅))).

(** The user cancels, the worker reaches its next checkpoint [_update(40)],
    then the client polls. *)
Definition cancel_then_checkpoint_then_poll : M status_resp :=
  cancel_scrape "T" ;;!
  update_progress 3600 "T" 40 ;;!
  scrape_status "T".

(** ** Rate counter bookkeeping. *)

(** The counter under key [k] reads [c]: absent (for [c = 0]) or an INCR
    counter holding [c], whatever its TTL. *)
Definition has_count (w : world) (k : string) (c : Z) : Prop :=
  (c = 0 /\ kv w !! k = None) \/ (exists t, kv w !! k = Some (VInt c, t)).

(** [k] successive submission attempts by one user on one UTC day, each
    run through the rate check at the instant [now_us]; the list holds each
    attempt's outcome. *)
Fixpoint attempts (E : env) (limit : Z) (user day : string) (now_us : Z)
    (k : nat) (w : world) : world * list (result unit) :=
  match k with
  | O => (w, [])
  | S k' =>
      let (w1, r) := run (rate_check limit user day now_us) E w in
      let (w2, rs) := attempts E limit user day now_us k' w1 in
      (w2, r :: rs)
  end.

(** A store that only refuses the owner-key write of [start_scrape]. *)
Definition owner_write_fails : op -> bool :=
  fun o => match o with OSet k => String.eqb k LOCK_TASK_KEY | _ => false end.
Definition env_owner_write_fails : env := mkEnv owner_write_fails "T1" fresh_native.

(** An unreachable store: every call raises. *)
Definition env_down : env := mkEnv (fun _ => true) "T1" fresh_native.

(** The lock is held by task B and has 5 seconds left. *)
Definition world_lock_B_short : world :=
  w_of (<[LOCK_KEY := (VStr "1", Some 5)]> (<[LOCK_TASK_KEY := (VStr "B", Some 5)]> ∅)).

(** What [AsyncResult] can report for a task of this program.  Reading
    [.state] of a finished task caches its meta, so the [.info] read that
    follows does not raise: for SUCCESS it is the dict [run_scraper_task]
    returns, for FAILURE the exception Celery rebuilds from the one it
    stored.  Other states (and an unreadable [.state]) are unconstrained. *)
Definition native_receivable (n : native) : Prop :=
  match n_state n with
  | Some s =>
      if String.eqb s "SUCCESS" then exists f, n_info n = Some (NIJson (JObj f))
      else if String.eqb s "FAILURE" then exists m, n_info n = Some (NIExc m)
      else True
  | None => True
  end.

(** Celery reports SUCCESS with the task's result dict. *)
Definition env_native_success : env :=
  mkEnv no_faults "T2"
    (fun _ => mkNative (Some "SUCCESS")
                (Some (NIJson (JObj [("count", JNum 2); ("reviews", JArr []);
                                     ("product", JNull)])))).

(** Two worlds agree on every key but the lock key and its owner key. *)
Definition same_but_lock (w1 w2 : world) : Prop :=
  forall k, k <> LOCK_KEY -> k <> LOCK_TASK_KEY -> kv w1 !! k = kv w2 !! k.

(** [m] changes only the lock keys, and from worlds that agree off the lock
    keys, under the same fault pattern, gives the same outcome. *)
Definition lock_only {A} (m : M A) : Prop :=
  forall E1 E2 w1 w2, fails E1 = fails E2 -> same_but_lock w1 w2 ->
    snd (m E1 w1) = snd (m E2 w2) /\
    same_but_lock (fst (m E1 w1)) (fst (m E2 w2)) /\
    same_but_lock w1 (fst (m E1 w1)).

(** Job [A] finished: its meta says SUCCESS and its result key holds the
    payload; the lock is still held by A. *)
Definition world_success_result : world :=
  w_of (<[LOCK_KEY := (VStr "1", Some LOCK_TTL)]>
       (<[LOCK_TASK_KEY := (VStr "A", Some LOCK_TTL)]>
       (<[meta_key "A" := (VJson success_env, Some META_TTL)]>
       (<[result_key "A" := (VJson (JObj [("reviews", JArr [JStr "good"]);
                                          ("count", JNum 1); ("product", JNull)]),
                             Some META_TTL)]> ∅)))).

(** ** API router: [scrape_lock_status] (lines 320-329). *)
Record lock_status_resp := mkLockStatus {
  ls_locked : bool;
  ls_owner : option val;
  ls_ttl : option Z
}.

Definition scrape_lock_status : M lock_status_resp :=
  try_except
    (let! locked := r_exists LOCK_KEY in
     let! owner := (if locked then r_get LOCK_TASK_KEY else ret None) in
     let! ttl := (if locked then (let! t := r_ttl LOCK_KEY in ret (Some t))
                  else ret None) in
     ret (mkLockStatus locked owner ttl))
    (fun _ => raise (HTTPException 503)).

(** ** Worker: end of [run_scraper_task]. *)

(** "Release the lock only if it still belongs to this task" (lines 484-490;
    the same block is at 507-513 and 528-534). *)
Definition release_if_owner (tid : string) : M unit :=
  try_pass (let! owner := r_get LOCK_TASK_KEY in
            if owner_is owner tid
            then r_delete LOCK_KEY ;;! r_delete LOCK_TASK_KEY
            else ret tt).

Definition failure_env (msg : string) : json :=
  JObj [("state", JStr "FAILURE"); ("error", JStr msg)].

Definition failure_payload (msg : string) : json :=
  JObj [("count", JNum 0); ("reviews", JArr []); ("product", JNull); ("error", JStr msg)].

(** The two failure handlers (lines 492-535), which differ only in logging:
    FAILURE meta, error payload, owner-checked release, then re-raise the
    exception [e] with [msg = str(e)]. *)
Definition finish_failure (tid msg : string) : M unit :=
  try_pass (r_set (meta_key tid) (VJson (failure_env msg)) (Some META_TTL) false ;;!
            ret tt) ;;!
  try_pass (r_set (result_key tid) (VJson (failure_payload msg)) (Some META_TTL) false ;;!
            ret tt) ;;!
  release_if_owner tid ;;!
  raise (PyException msg).

(** ** Worker: theme de-duplication. *)

(** [str.lower()] on ASCII text (the strings of this development are byte
    strings; only A-Z change). *)
Definition ascii_lower (c : ascii) : ascii :=
  let n := nat_of_ascii c in
  if (65 <=? n)%nat && (n <=? 90)%nat then ascii_of_nat (n + 32) else c.

Fixpoint str_lower (s : string) : string :=
  match s with
  | EmptyString => EmptyString
  | String c s' => String (ascii_lower c) (str_lower s')
  end.

(** Character classes of [r"[A-Za-z][A-Za-z0-9_\-]{2,}"]. *)
Definition is_alpha (c : ascii) : bool :=
  let n := nat_of_ascii c in
  ((65 <=? n)%nat && (n <=? 90)%nat) || ((97 <=? n)%nat && (n <=? 122)%nat).

Definition is_tok_char (c : ascii) : bool :=
  let n := nat_of_ascii c in
  is_alpha c || ((48 <=? n)%nat && (n <=? 57)%nat) || (n =? 95)%nat || (n =? 45)%nat.

(** [token_re.findall(s)], left to right: a match starts at a letter and
    takes the longest run of token characters after it; it counts when it
    has at least 3 characters.  A run that is too short cannot contain a
    longer match, so scanning resumes after it. *)
Definition emit_token (cur : option string) : list string :=
  match cur with
  | Some t => if (3 <=? String.length t)%nat then [t] else []
  | None => []
  end.

Fixpoint scan_tokens (s : string) (cur : option string) : list string :=
  match s with
  | EmptyString => emit_token cur
  | String c s' =>
      match cur with
      | Some t =>
          if is_tok_char c then scan_tokens s' (Some (t +:+ String c EmptyString))
          else emit_token cur ++ scan_tokens s' None
      | None =>
          if is_alpha c then scan_tokens s' (Some (String c EmptyString))
          else scan_tokens s' None
      end
  end.

Definition findall_tokens (s : string) : list string := scan_tokens s None.

(** [_count_tokens(texts, vocab)] (lines 392-399). *)
Definition count_tokens (texts : list string) (vocab : gset string) : gmap string Z :=
  foldl (fun counts t =>
           foldl (fun counts tok =>
                    if decide (tok ∈ vocab)
                    then <[tok := default 0 (counts !! tok) + 1]> counts
                    else counts)
                 counts (findall_tokens (str_lower t)))
        ∅ texts.

(** [_filter_list(lst, drop)] (lines 408-419). *)
Fixpoint filter_list_go (lst : list string) (drop seen : gset string) : list string :=
  match lst with
  | [] => []
  | w :: l =>
      let lw := str_lower w in
      if decide (lw ∈ drop) then filter_list_go l drop seen
      else if decide (lw ∈ seen) then filter_list_go l drop seen
      else w :: filter_list_go l drop ({[lw]} ∪ seen)
  end.

Definition filter_list (lst : list string) (drop : gset string) : list string :=
  filter_list_go lst drop ∅.

(** Lines 401-435: theme de-duplication across the positive and negative
    sides; returns the new [(positive_themes, negative_themes)]. *)
Definition dedup_themes (positive_themes negative_themes positive_texts negative_texts : list string)
    : list string * list string :=
  let pos_set : gset string := list_to_set (map str_lower positive_themes) in
  let neg_set : gset string := list_to_set (map str_lower negative_themes) in
  let overlap := pos_set ∩ neg_set in
  if decide (overlap = ∅) then (positive_themes, negative_themes)
  else
    let pos_counts := count_tokens positive_texts overlap in
    let neg_counts := count_tokens negative_texts overlap in
    let p t := default 0 (pos_counts !! t) in
    let n t := default 0 (neg_counts !! t) in
    let drop_from_pos := filter (fun t => p t < n t) overlap in
    let drop_from_neg := filter (fun t => ~ (p t < n t)) overlap in
    (filter_list positive_themes drop_from_pos, filter_list negative_themes drop_from_neg).

(** ** Worker: [_truncate_name]. *)

(** A Python [str] as the list of its Unicode code points. *)
Abbreviation pystr := (list Z).

(** [str.isspace()] on one code point: the characters Python counts as
    whitespace (bidirectional class WS, B or S, or category Zs): tab to CR,
    the separators 0x1c-0x1f, space, NEL, no-break space, ogham space,
    U+2000-U+200A, the line and paragraph separators, narrow no-break
    space, medium mathematical space and ideographic space. *)
Definition py_space (c : Z) : bool :=
  ((9 <=? c) && (c <=? 13)) || ((28 <=? c) && (c <=? 32)) || (c =? 133) ||
  (c =? 160) || (c =? 5760) || ((8192 <=? c) && (c <=? 8202)) ||
  (c =? 8232) || (c =? 8233) || (c =? 8239) || (c =? 8287) || (c =? 12288).

(** The word being read, if any. *)
Definition flush (cur : pystr) : list pystr :=
  match cur with [] => [] | _ => [cur] end.

(** [s.split()]: maximal runs of non-whitespace characters, left to right;
    [cur] is the word being read. *)
Fixpoint py_split_go (s cur : pystr) : list pystr :=
  match s with
  | [] => flush cur
  | c :: s' =>
      if py_space c then (flush cur ++ py_split_go s' [])%list
      else py_split_go s' (cur ++ [c])%list
  end.

Definition py_split (s : pystr) : list pystr := py_split_go s [].

(** [sep.join(parts)]. *)
Fixpoint py_join (sep : pystr) (parts : list pystr) : pystr :=
  match parts with
  | [] => []
  | [p] => p
  | p :: ps => (p ++ sep ++ py_join sep ps)%list
  end.

(** [_truncate_name(name, max_words=5)] (lines 344-353) on
    [product_info.get("productName")], a string or [None]; the [except]
    branch cannot be reached for these ([str(name).split()] and the join do
    not raise). *)
Definition truncate_name (name : option pystr) : option pystr :=
  match name with
  | None => None
  | Some [] => Some []
  | Some s =>
      let parts := py_split s in
      if (length parts <=? 5)%nat then Some s
      else Some (py_join [32] (take 5 parts))
  end.

Definition no_space (s : pystr) : bool := forallb (fun c => negb (py_space c)) s.

Definition is_word (w : pystr) : Prop := w <> [] /\ no_space w = true.

(* ================================================================== *)
(** * Theorems *)

(** ** C1: finalizers and the recorded lock owner. *)

(** C1 (code_bug).  The lock is held by task B (the owner key records "B").
    Finalizing task A, by a cancel request for A or by a status poll that
    observes A's SUCCESS envelope, deletes the lock key anyway: neither
    [cancel_scrape] nor [scrape_status] re-reads the owner key, unlike the
    worker's own releases. *)
Theorem finalizer_deletes_foreign_lock :
  kv world_owned_by_B !! LOCK_TASK_KEY = Some (VStr "B", Some LOCK_TTL) /\
  kv world_owned_by_B !! LOCK_KEY = Some (VStr "1", Some LOCK_TTL) /\
  kv (fst (run (cancel_scrape "A") env0 world_owned_by_B)) !! LOCK_KEY = None /\
  kv (fst (run (scrape_status "A") env0 world_owned_by_B)) !! LOCK_KEY = None.
Proof. vm_compute. repeat split. Qed.

(** ** C2: the worker checkpoint on a set cancel flag. *)

(** C2 (code_bug).  With T's cancel flag set and no store fault, the
    checkpoint [_update(40)] returns normally, so the job goes on running:
    the exception raised by [_do_cancel] is caught by [_update]'s own
    [except Exception: pass], and the checkpoint then overwrites the REVOKED
    envelope in the meta key with PROGRESS 40.  The lock is released and
    Celery's state is REVOKED ([_do_cancel] stored it; the PROGRESS
    [update_state] that follows cannot decode the stored REVOKED meta, which
    has no [exc_type], and its error is swallowed). *)
Theorem checkpoint_swallows_cancellation :
  snd (run (update_progress 3600 "T" 40) env0 world_cancel_flagged) = Ok tt /\
  kv (fst (run (update_progress 3600 "T" 40) env0 world_cancel_flagged)) !! meta_key "T"
    = Some (VJson (progress_env 40), Some META_TTL) /\
  celery (fst (run (update_progress 3600 "T" 40) env0 world_cancel_flagged)) !! "T"
    = Some ("REVOKED", JObj [("exc", JStr "cancelled by user")]) /\
  kv (fst (run (update_progress 3600 "T" 40) env0 world_cancel_flagged)) !! LOCK_KEY
    = None.
Proof. vm_compute. repeat split. Qed.

(** ** C3: cancellation convergence. *)

(** C3 (code_bug, same defect as C2).  T is running and holds the lock; the
    user cancels it, the worker reaches its next checkpoint [_update(40)],
    and the client polls: the poll reports PROGRESS 40, not REVOKED. *)
Theorem cancel_then_poll_reports_progress :
  snd (run cancel_then_checkpoint_then_poll env0 world_running_T)
    = Ok (mkStatus "T" "PROGRESS" (JNum 40) JNull JNull JNull ErrNone).
Proof. vm_compute. reflexivity. Qed.

(** ** Unfolding tactics for the monad. *)
Ltac crunch Hf :=
  repeat progress (unfold try_except, try_pass, bindM, ret, raise, guarded in *;
                   rewrite ?Hf, ?lookup_insert_eq, ?insert_insert_eq; simpl).

(** ** C4: the daily rate limit. *)

Lemma rate_key_inj user day day' : rate_key user day = rate_key user day' -> day = day'.
Proof. unfold rate_key. intros H. by do 3 apply (inj (String.app _)) in H. Qed.

Lemma attempts_S E limit user day now_us k w :
  attempts E limit user day now_us (S k) w =
  let (w1, r) := run (rate_check limit user day now_us) E w in
  let (w2, rs) := attempts E limit user day now_us k w1 in (w2, r :: rs).
Proof. reflexivity. Qed.

(** Up to 23:59:59.000000 UTC the TTL to midnight is at least one second. *)
Lemma ttl_to_midnight_pos now_us :
  now_us <= 86399 * 1000000 -> 0 < ttl_to_midnight now_us.
Proof. intros H. unfold ttl_to_midnight. apply Z.div_str_pos. lia. Qed.

Section RateLimit.
Variables (E : env) (limit : Z) (user day : string) (now_us : Z).
Hypothesis Hf : forall o, fails E o = false.
Hypothesis Hl : 0 < limit.
Hypothesis Hus : now_us <= 86399 * 1000000.

(** One attempt increments the counter (keeping or setting its TTL) and
    is refused with 429 exactly when the new count exceeds the limit. *)
Lemma rate_check_step w c :
  has_count w (rate_key user day) c ->
  exists t', run (rate_check limit user day now_us) E w =
    (with_kv w (<[rate_key user day := (VInt (c + 1), t')]> (kv w)),
     if c + 1 >? limit then Exc (HTTPException 429) else Ok tt).
Proof.
  intros Hc. unfold run, rate_check.
  replace (limit >? 0) with true by lia.
  pose proof (ttl_to_midnight_pos now_us Hus) as Ht0.
  remember (ttl_to_midnight now_us) as T eqn:HT. clear HT.
  assert (Hle : (T <=? 0) = false) by lia.
  unfold r_incr, r_ttl, r_expire.
  destruct Hc as [[-> Hn] | [t Ht]]; crunch Hf; rewrite ?Hn, ?Ht; crunch Hf.
  - rewrite Hle. crunch Hf.
    eexists. change (0 + 1) with 1. unfold with_kv; simpl.
    destruct (1 >? limit); reflexivity.
  - destruct t as [t|]; crunch Hf.
    + destruct ((c + 1 =? 1) || (t <? 0)); crunch Hf; rewrite ?Hle; crunch Hf;
        eexists; unfold with_kv; simpl; destruct (c + 1 >? limit); reflexivity.
    + rewrite orb_true_r. crunch Hf. rewrite Hle. crunch Hf.
      eexists. unfold with_kv; simpl. destruct (c + 1 >? limit); reflexivity.
Qed.

(** From count [c <= limit], the next [limit - c] attempts pass and the
    one after is refused; no other key is touched. *)
Lemma attempts_boundary (m : nat) :
  forall w c, 0 <= c -> has_count w (rate_key user day) c ->
  Z.to_nat (limit - c) = m -> c <= limit ->
  snd (attempts E limit user day now_us (S m) w)
    = (repeat (Ok tt) m ++ [Exc (HTTPException 429)])%list /\
  (forall k, k <> rate_key user day ->
     kv (fst (attempts E limit user day now_us (S m) w)) !! k = kv w !! k).
Proof.
  induction m as [|m IH]; intros w c Hc0 Hc Hm Hcl.
  - assert (c = limit) as -> by lia.
    simpl. destruct (rate_check_step w limit Hc) as [t' Ht'].
    rewrite Ht'. replace (limit + 1 >? limit) with true by lia. simpl.
    split; [done|]. intros k Hk. by rewrite lookup_insert_ne.
  - rewrite (attempts_S E limit user day now_us (S m)).
    destruct (rate_check_step w c Hc) as [t' Ht'].
    rewrite Ht'. replace (c + 1 >? limit) with false by lia.
    set (w1 := with_kv w (<[rate_key user day:=(VInt (c + 1), t')]> (kv w))).
    assert (Hc1 : has_count w1 (rate_key user day) (c + 1)).
    { right. exists t'. simpl. by rewrite lookup_insert_eq. }
    destruct (IH w1 (c + 1) ltac:(lia) Hc1 ltac:(lia) ltac:(lia)) as [IH1 IH2].
    cbv beta iota zeta.
    destruct (attempts E limit user day now_us (S m) w1) as [w2 rs] eqn:Ha.
    simpl in IH1, IH2. simpl. split; [by rewrite IH1|].
    intros k Hk. rewrite IH2 by done. simpl. by rewrite lookup_insert_ne.
Qed.
End RateLimit.

(** C4 (code_bug).  Daily limit 3; user u1 makes four attempts on
    2026-10-16, all at 23:59:59.5 UTC.  The TTL to midnight is computed as
    [int(0.5) = 0], and EXPIRE with TTL 0 deletes the counter each time it
    is set, so every attempt reads count 1 and all four pass the rate
    check, the fourth one included; the counter is left absent. *)
Theorem rate_limit_last_second :
  ttl_to_midnight 86399500000 = 0 /\
  snd (attempts env0 3 "u1" "20261016" 86399500000 4 (w_of ∅)) = repeat (Ok tt) 4 /\
  kv (fst (attempts env0 3 "u1" "20261016" 86399500000 4 (w_of ∅))) !! rate_key "u1" "20261016"
    = None.
Proof. vm_compute. repeat split. Qed.

(** With a daily limit [N > 0], a working store and an attempt made before
    the last second of the UTC day (at most 23:59:59.000000, so the TTL to
    midnight is at least 1): every attempt increments the user's counter for
    the day, also when it is refused, and it is refused with 429 (by the
    rate check and hence by [start_scrape]) exactly when the incremented
    count exceeds [N].  So from a fresh day the first [N] attempts pass the
    rate check and attempt [N+1] is refused, while on another UTC day, whose
    counter is absent, the first attempt passes. *)
Theorem rate_limit_boundary (E : env) (limit : Z) (user day day' : string)
    (now_us now_us' : Z) (w : world) :
  (forall o, fails E o = false) -> 0 < limit -> now_us <= 86399 * 1000000 -> day <> day' ->
  kv w !! rate_key user day = None -> kv w !! rate_key user day' = None ->
  (forall (w0 : world) (c : Z), has_count w0 (rate_key user day) c ->
     has_count (fst (run (rate_check limit user day now_us) E w0)) (rate_key user day) (c + 1) /\
     snd (run (rate_check limit user day now_us) E w0)
       = (if c + 1 >? limit then Exc (HTTPException 429) else Ok tt) /\
     (limit < c + 1 ->
        snd (run (start_scrape limit user day now_us) E w0) = Exc (HTTPException 429))) /\
  snd (attempts E limit user day now_us (S (Z.to_nat limit)) w)
    = (repeat (Ok tt) (Z.to_nat limit) ++ [Exc (HTTPException 429)])%list /\
  snd (run (rate_check limit user day' now_us') E
         (fst (attempts E limit user day now_us (S (Z.to_nat limit)) w))) = Ok tt.
Proof.
  intros Hf Hl Hus Hd Hn Hn'. split; [|split].
  - intros w0 c Hc. destruct (rate_check_step E limit user day now_us Hf Hl Hus w0 c Hc) as [t' Ht'].
    split; [|split].
    + rewrite Ht'. right. exists t'. simpl. by rewrite lookup_insert_eq.
    + by rewrite Ht'.
    + intros Hlt. unfold start_scrape, run, bindM.
      unfold run in Ht'. rewrite Ht'. by replace (c + 1 >? limit) with true by lia.
  - apply (attempts_boundary E limit user day now_us Hf Hl Hus _ w 0); [lia | by left | lia | lia].
  - destruct (attempts_boundary E limit user day now_us Hf Hl Hus (Z.to_nat limit) w 0)
      as [_ Hfr]; [lia | by left | lia | lia |].
    remember (fst (attempts E limit user day now_us (S (Z.to_nat limit)) w)) as w1 eqn:Hw1.
    assert (Hn1 : kv w1 !! rate_key user day' = None).
    { rewrite Hfr; [done|]. intros Heq. by apply Hd, rate_key_inj with user. }
    unfold run, rate_check. replace (limit >? 0) with true by lia.
    remember (rate_key user day') as rk eqn:Hrk. clear Hrk.
    remember (ttl_to_midnight now_us') as T eqn:HT. clear HT.
    unfold r_incr, r_ttl, r_expire. crunch Hf. rewrite Hn1. crunch Hf.
    destruct (T <=? 0); crunch Hf; by replace (1 >? limit) with false by lia.
Qed.

Lemma rate_limit_boundary_witness :
  ((forall (w0 : world) (c : Z), has_count w0 (rate_key "u1" "20261016") c ->
     has_count (fst (run (rate_check 3 "u1" "20261016" 3600000000) env0 w0)) (rate_key "u1" "20261016") (c + 1) /\
     snd (run (rate_check 3 "u1" "20261016" 3600000000) env0 w0)
       = (if c + 1 >? 3 then Exc (HTTPException 429) else Ok tt) /\
     (3 < c + 1 ->
        snd (run (start_scrape 3 "u1" "20261016" 3600000000) env0 w0) = Exc (HTTPException 429))) /\
  snd (attempts env0 3 "u1" "20261016" 3600000000 (S (Z.to_nat 3)) (w_of ∅))
    = (repeat (Ok tt) (Z.to_nat 3) ++ [Exc (HTTPException 429)])%list /\
  snd (run (rate_check 3 "u1" "20261017" 86399500000) env0
         (fst (attempts env0 3 "u1" "20261016" 3600000000 (S (Z.to_nat 3)) (w_of ∅)))) = Ok tt).
Proof.
  apply (rate_limit_boundary env0 3 "u1" "20261016" "20261017" 3600000000 86399500000 (w_of ∅));
    [intros; reflexivity | lia | lia | discriminate | reflexivity | reflexivity].
Defined.

(** ** Monad laws used below. *)
Lemma bind_ok {A B} (m : M A) (k : A -> M B) E w w' a :
  m E w = (w', Ok a) -> bindM m k E w = k a E w'.
Proof. intros H. unfold bindM. by rewrite H. Qed.

Lemma bind_exc {A B} (m : M A) (k : A -> M B) E w w' e :
  m E w = (w', Exc e) -> bindM m k E w = (w', Exc e).
Proof. intros H. unfold bindM. by rewrite H. Qed.

Lemma bind_try_pass {B} (m : M unit) (k : unit -> M B) E w :
  bindM (try_pass m) k E w = k tt E (fst (try_pass m E w)).
Proof. unfold bindM, try_pass, try_except, ret. destruct (m E w) as [w' [[]|e]]; reflexivity. Qed.

Lemma lock_keys_ne : LOCK_KEY <> LOCK_TASK_KEY.
Proof. vm_compute. intros H. discriminate H. Qed.

(** The best-effort lock release of a terminal branch, or nothing. *)
Lemma release_step {B} (b : bool) (k : unit -> M B) E w :
  bindM (if b then release_lock_unchecked else ret tt) k E w =
  k tt E (fst ((if b then release_lock_unchecked else ret tt) E w)).
Proof. destruct b; [apply bind_try_pass | reflexivity]. Qed.

(** ** C5: fail-open rate limiter, fail-closed status read. *)

(** C5.  When the store refuses the rate counter's INCR, [start_scrape]
    behaves exactly as its lock/submission phase alone (the limiter fails
    open; if the store also refuses the lock SET, that phase raises the
    store error, not a 429); when the store refuses the read of the meta
    key, [scrape_status] raises HTTP 503. *)
Theorem rate_fail_open_status_fail_closed E w limit user day sod j :
  fails E (OIncr (rate_key user day)) = true ->
  fails E (OGet (meta_key j)) = true ->
  run (start_scrape limit user day sod) E w = run lock_and_submit E w /\
  (fails E (OSet LOCK_KEY) = true ->
     snd (run (start_scrape limit user day sod) E w) = Exc (RedisError (OSet LOCK_KEY))) /\
  snd (run (scrape_status j) E w) = Exc (HTTPException 503).
Proof.
  intros Hi Hg. split; [|split].
  - unfold run, start_scrape, rate_check. destruct (limit >? 0); [|reflexivity].
    unfold bindM at 1, try_except at 1, bindM at 1, r_incr, guarded at 1. rewrite Hi. reflexivity.
  - intros Hs. unfold run, start_scrape, rate_check. destruct (limit >? 0);
    unfold bindM at 1; [unfold try_except at 1, bindM at 1, r_incr, guarded at 1; rewrite Hi|];
    simpl; unfold lock_and_submit, bindM at 1, r_set, guarded at 1; rewrite Hs; reflexivity.
  - unfold run, scrape_status, bindM at 1, try_except at 1, r_get, guarded at 1. rewrite Hg. reflexivity.
Qed.

Lemma rate_fail_open_status_fail_closed_witness :
  fails env_down (OIncr (rate_key "u1" "20261016")) = true /\
  fails env_down (OGet (meta_key "J")) = true /\
  run (start_scrape 3 "u1" "20261016" 3600) env_down (w_of ∅) = run lock_and_submit env_down (w_of ∅) /\
  (fails env_down (OSet LOCK_KEY) = true ->
     snd (run (start_scrape 3 "u1" "20261016" 3600) env_down (w_of ∅)) = Exc (RedisError (OSet LOCK_KEY))) /\
  snd (run (scrape_status "J") env_down (w_of ∅)) = Exc (HTTPException 503).
Proof.
  split; [reflexivity|]. split; [reflexivity|].
  apply (rate_fail_open_status_fail_closed env_down (w_of ∅) 3 "u1" "20261016" 3600 "J");
    reflexivity.
Defined.

(** ** C6: owner-key write failure after submission. *)

(** C6 (code_bug).  The lock is free and only the owner-key write fails:
    the task T1 has been sent to Celery, yet [start_scrape] runs the
    handler meant for a failed submission, deletes the lock key and answers
    500 ("Failed to enqueue task"), so T1 stays queued while no lock guards
    it. *)
Lemma owner_write_failure_counterexample :
  submitted (fst (run (start_scrape 3 "u1" "20261016" 3600) env_owner_write_fails (w_of ∅))) = ["T1"] /\
  kv (fst (run (start_scrape 3 "u1" "20261016" 3600) env_owner_write_fails (w_of ∅))) !! LOCK_KEY = None /\
  snd (run (start_scrape 3 "u1" "20261016" 3600) env_owner_write_fails (w_of ∅))
    = Exc (HTTPException 500).
Proof. vm_compute. repeat split. Qed.

(** In the lock/submission phase of [start_scrape], when the lock is free
    and the task is sent but the owner-key write fails, the [except]
    handler rolls back: it deletes the lock key and the owner key and
    raises HTTP 500, while the task stays submitted. *)
Theorem owner_write_failure_rolls_back E w :
  fails E (OSet LOCK_KEY) = false -> fails E OImportWorker = false ->
  fails E OSendTask = false -> fails E (OSet LOCK_TASK_KEY) = true ->
  fails E (ODel LOCK_KEY) = false -> fails E (ODel LOCK_TASK_KEY) = false ->
  kv w !! LOCK_KEY = None ->
  snd (run lock_and_submit E w) = Exc (HTTPException 500) /\
  submitted (fst (run lock_and_submit E w)) = (submitted w ++ [new_task_id E])%list /\
  kv (fst (run lock_and_submit E w)) !! LOCK_KEY = None /\
  kv (fst (run lock_and_submit E w)) !! LOCK_TASK_KEY = None.
Proof.
  intros H1 H2 H3 H4 H5 H6 Hl.
  unfold run, lock_and_submit, r_set, r_delete, import_worker, send_task.
  repeat progress (unfold try_except, bindM, ret, raise, guarded;
                   rewrite ?H1, ?H2, ?H3, ?H4, ?H5, ?H6, ?Hl; simpl).
  split; [done|]. split; [done|].
  split; [rewrite lookup_delete_ne; [by rewrite lookup_delete_eq|]; intros H; by apply lock_keys_ne|].
  by rewrite lookup_delete_eq.
Qed.

Lemma owner_write_failure_rolls_back_witness :
  snd (run lock_and_submit env_owner_write_fails (w_of ∅)) = Exc (HTTPException 500) /\
  submitted (fst (run lock_and_submit env_owner_write_fails (w_of ∅)))
    = (submitted (w_of ∅) ++ [new_task_id env_owner_write_fails])%list /\
  kv (fst (run lock_and_submit env_owner_write_fails (w_of ∅))) !! LOCK_KEY = None /\
  kv (fst (run lock_and_submit env_owner_write_fails (w_of ∅))) !! LOCK_TASK_KEY = None.
Proof.
  apply (owner_write_failure_rolls_back env_owner_write_fails (w_of ∅));
    vm_compute; reflexivity.
Defined.

(** ** C7: fallback to Celery's native status. *)

(** The fallback answer for any native state and info: with the meta key
    absent and the meta read, the worker import and [AsyncResult]
    succeeding, [scrape_status] answers with the native state [st] (UNKNOWN
    when unreadable) and info [info] ([None] when unreadable): SUCCESS with
    a dict [info] gives progress 100 and result/count/product from [info];
    FAILURE gives the error [info["exc"]] for a dict, [str(info)] for a
    truthy non-dict and [None] otherwise; any other state gives no error;
    and outside SUCCESS-with-dict the progress is [info.get("progress", 0)]
    for a dict and 0 otherwise, with no result/count/product. *)
Lemma fallback_response E w j :
  fails E (OGet (meta_key j)) = false -> fails E OImportWorker = false ->
  fails E (OAsyncResult j) = false -> kv w !! meta_key j = None ->
  let st := native_state (native_of E j) in
  let info := native_info (native_of E j) in
  exists resp, snd (run (scrape_status j) E w) = Ok resp /\
    sr_job_id resp = j /\ sr_state resp = st /\
    (st = "SUCCESS" -> forall f, info_dict info = Some f ->
       sr_progress resp = JNum 100 /\ sr_result resp = dget f "reviews" JNull /\
       sr_count resp = dget f "count" JNull /\ sr_product resp = dget f "product" JNull /\
       sr_error resp = ErrNone) /\
    (st = "FAILURE" ->
       sr_error resp = match info_dict info with
                       | Some f => ErrJson (dget f "exc" JNull)
                       | None => if ninfo_truthy info then ErrStrOf info else ErrNone
                       end) /\
    (st <> "SUCCESS" -> st <> "FAILURE" -> sr_error resp = ErrNone) /\
    ((st = "SUCCESS" -> info_dict info = None) ->
       sr_progress resp = match info_dict info with
                          | Some f => dget f "progress" (JNum 0)
                          | None => JNum 0
                          end /\
       sr_result resp = JNull /\ sr_count resp = JNull /\ sr_product resp = JNull).
Proof.
  intros Hg Hi Ha Hn st info.
  unfold run, scrape_status.
  erewrite (bind_ok _ _ E w w None); [|unfold try_except, r_get, guarded; rewrite Hg, Hn; reflexivity].
  cbv beta iota.
  unfold status_fallback.
  erewrite (bind_ok _ _ E w w tt); [|unfold try_except, import_worker, guarded, ret; rewrite Hi; reflexivity].
  erewrite (bind_ok _ _ E w w (native_of E j)); [|unfold try_except, async_result, guarded; rewrite Ha; reflexivity].
  cbv beta zeta.
  fold st info.
  rewrite release_step.
  cbv beta zeta.
  destruct (String.eqb_spec st "SUCCESS") as [Es|Es];
  destruct (info_dict info) as [f|] eqn:Ei;
  destruct (String.eqb_spec st "FAILURE") as [Ef|Ef];
  unfold ret; (eexists; split; [reflexivity|]); cbn [sr_job_id sr_state sr_progress sr_result sr_count sr_product sr_error];
  (split; [reflexivity|]); (split; [reflexivity|]);
  repeat split; intros; try congruence;
  try (rewrite Es in Ef; discriminate Ef);
  try (exfalso; match goal with H : _ -> info_dict _ = None |- _ => specialize (H Es); congruence end).
  all: try (match goal with H : info_dict _ = Some _ |- _ => rewrite H in *; congruence end).
  all: exfalso; match goal with H : _ -> Some _ = None |- _ => specialize (H Es); discriminate H end.
Qed.

Lemma receivable_cases n :
  native_receivable n ->
  (native_state n = "SUCCESS" -> exists f, native_info n = NIJson (JObj f)) /\
  (native_state n = "FAILURE" -> exists m, native_info n = NIExc m).
Proof.
  unfold native_receivable, native_state, native_info.
  destruct n as [[s0|] i]; simpl; [|split; discriminate].
  destruct (String.eqb_spec s0 "SUCCESS") as [->|Hs0].
  - intros [f ->]. split; [by exists f | discriminate].
  - destruct (String.eqb_spec s0 "FAILURE") as [->|Hf0].
    + intros [m ->]. split; [congruence | by exists m].
    + intros _. split; congruence.
Qed.

(** C7.  When the meta key is absent (and the meta read, the worker import
    and [AsyncResult] succeed), [scrape_status] answers with Celery's native
    state, passed through as is, for every status Celery can report for
    this program's task: native SUCCESS gives progress 100 with the
    reviews, count and product of the task's result dict and no error;
    native FAILURE gives the error [str(info)] of the stored exception,
    which is set; any other state (PENDING, PROGRESS, REVOKED, UNKNOWN when
    [.state] raises, ...) gives [info.get("progress", 0)] for a dict info
    and 0 otherwise, no result/count/product and no error.  (As shipped,
    [app.worker] imports [fetch_amazon_reviews], which
    [app/services/scraper.py] does not define; with that import failing,
    this path answers 500.) *)
Theorem fallback_native_mapping E w j :
  fails E (OGet (meta_key j)) = false -> fails E OImportWorker = false ->
  fails E (OAsyncResult j) = false -> kv w !! meta_key j = None ->
  native_receivable (native_of E j) ->
  let st := native_state (native_of E j) in
  let info := native_info (native_of E j) in
  exists resp, snd (run (scrape_status j) E w) = Ok resp /\
    sr_job_id resp = j /\ sr_state resp = st /\
    (st = "SUCCESS" -> exists f, info = NIJson (JObj f) /\
       sr_progress resp = JNum 100 /\ sr_result resp = dget f "reviews" JNull /\
       sr_count resp = dget f "count" JNull /\ sr_product resp = dget f "product" JNull /\
       sr_error resp = ErrNone) /\
    (st = "FAILURE" -> sr_error resp = ErrStrOf info /\ sr_error resp <> ErrNone) /\
    (st <> "SUCCESS" -> st <> "FAILURE" ->
       sr_error resp = ErrNone /\
       sr_progress resp = match info_dict info with
                          | Some f => dget f "progress" (JNum 0)
                          | None => JNum 0
                          end /\
       sr_result resp = JNull /\ sr_count resp = JNull /\ sr_product resp = JNull).
Proof.
  intros Hg Hi Ha Hn Hr st info.
  destruct (fallback_response E w j Hg Hi Ha Hn)
    as (resp & Hresp & Hj & Hs & HS & HF & HO & HP).
  fold st info in Hs, HS, HF, HO, HP.
  exists resp. split; [exact Hresp|]. split; [exact Hj|]. split; [exact Hs|].
  destruct (receivable_cases _ Hr) as [HrS HrF]. fold st info in HrS, HrF.
  split; [|split].
  - intros Es. destruct (HrS Es) as [f Hf]. exists f. split; [exact Hf|].
    apply (HS Es f). by rewrite Hf.
  - intros Ef. destruct (HrF Ef) as [m Hm]. rewrite (HF Ef), Hm. simpl.
    split; [reflexivity | discriminate].
  - intros Es Ef. split; [exact (HO Es Ef)|].
    apply HP. intros E'. contradiction.
Qed.

Lemma fallback_native_mapping_witness :
  let st := native_state (native_of env_native_success "J") in
  let info := native_info (native_of env_native_success "J") in
  exists resp, snd (run (scrape_status "J") env_native_success (w_of ∅)) = Ok resp /\
    sr_job_id resp = "J" /\ sr_state resp = st /\
    (st = "SUCCESS" -> exists f, info = NIJson (JObj f) /\
       sr_progress resp = JNum 100 /\ sr_result resp = dget f "reviews" JNull /\
       sr_count resp = dget f "count" JNull /\ sr_product resp = dget f "product" JNull /\
       sr_error resp = ErrNone) /\
    (st = "FAILURE" -> sr_error resp = ErrStrOf info /\ sr_error resp <> ErrNone) /\
    (st <> "SUCCESS" -> st <> "FAILURE" ->
       sr_error resp = ErrNone /\
       sr_progress resp = match info_dict info with
                          | Some f => dget f "progress" (JNum 0)
                          | None => JNum 0
                          end /\
       sr_result resp = JNull /\ sr_count resp = JNull /\ sr_product resp = JNull).
Proof.
  apply (fallback_native_mapping env_native_success (w_of ∅) "J");
    [reflexivity | reflexivity | reflexivity | reflexivity | simpl; eexists; reflexivity].
Defined.

(** ** C8: repeated polls after a terminal state. *)

Lemma same_but_lock_refl w : same_but_lock w w.
Proof. by intros k _ _. Qed.

Lemma same_but_lock_sym w1 w2 : same_but_lock w1 w2 -> same_but_lock w2 w1.
Proof. intros H k H1 H2. by rewrite H. Qed.

Lemma same_but_lock_trans w1 w2 w3 :
  same_but_lock w1 w2 -> same_but_lock w2 w3 -> same_but_lock w1 w3.
Proof. intros H H' k H1 H2. by rewrite H, H'. Qed.

Lemma lock_only_ret {A} (a : A) : lock_only (ret a).
Proof. intros E1 E2 w1 w2 _ H. split; [done|]. split; [done|]. apply same_but_lock_refl. Qed.

Lemma lock_only_raise {A} e : lock_only (@raise A e).
Proof. intros E1 E2 w1 w2 _ H. split; [done|]. split; [done|]. apply same_but_lock_refl. Qed.

Lemma lock_only_lift {A} (r : exn + A) : lock_only (lift r).
Proof. destruct r; [apply lock_only_raise | apply lock_only_ret]. Qed.

Lemma lock_only_bind {A B} (m : M A) (k : A -> M B) :
  lock_only m -> (forall a, lock_only (k a)) -> lock_only (bindM m k).
Proof.
  intros Hm Hk E1 E2 w1 w2 Hf Hw. unfold bindM.
  destruct (Hm E1 E2 w1 w2 Hf Hw) as (Hr & Hw' & Hfr).
  destruct (m E1 w1) as [w1' [a|e]], (m E2 w2) as [w2' r2]; simpl in *; subst r2.
  - destruct (Hk a E1 E2 w1' w2' Hf Hw') as (Hr2 & Hw2 & Hfr2).
    split; [done|]. split; [done|]. by eapply same_but_lock_trans.
  - done.
Qed.

Lemma lock_only_try_except {A} (m : M A) (h : exn -> M A) :
  lock_only m -> (forall e, lock_only (h e)) -> lock_only (try_except m h).
Proof.
  intros Hm Hh E1 E2 w1 w2 Hf Hw. unfold try_except.
  destruct (Hm E1 E2 w1 w2 Hf Hw) as (Hr & Hw' & Hfr).
  destruct (m E1 w1) as [w1' [a|e]], (m E2 w2) as [w2' r2]; simpl in *; subst r2.
  - done.
  - destruct (Hh e E1 E2 w1' w2' Hf Hw') as (Hr2 & Hw2 & Hfr2).
    split; [done|]. split; [done|]. by eapply same_but_lock_trans.
Qed.

Lemma lock_only_try_pass (m : M unit) : lock_only m -> lock_only (try_pass m).
Proof. intros Hm. apply lock_only_try_except; [done|intros; apply lock_only_ret]. Qed.

Lemma lock_only_r_get k :
  k <> LOCK_KEY -> k <> LOCK_TASK_KEY -> lock_only (r_get k).
Proof.
  intros H1 H2 E1 E2 w1 w2 Hf Hw. unfold r_get, guarded. rewrite Hf.
  destruct (fails E2 (OGet k)); simpl.
  - split; [done|]. split; [done|]. apply same_but_lock_refl.
  - rewrite (Hw k H1 H2). split; [done|]. split; [done|]. apply same_but_lock_refl.
Qed.

Lemma lock_only_r_delete k :
  k = LOCK_KEY \/ k = LOCK_TASK_KEY -> lock_only (r_delete k).
Proof.
  intros Hk E1 E2 w1 w2 Hf Hw. unfold r_delete, guarded. rewrite Hf.
  destruct (fails E2 (ODel k)); simpl.
  - split; [done|]. split; [done|]. apply same_but_lock_refl.
  - split; [done|].
    split; intros k' H1 H2; unfold with_kv; simpl;
      (rewrite !lookup_delete_ne; [|intros ->; destruct Hk; congruence..]); [by apply Hw|done].
Qed.

Lemma lock_only_release : lock_only release_lock_unchecked.
Proof.
  apply lock_only_try_pass, lock_only_bind; [apply lock_only_r_delete; by left|].
  intros _. apply lock_only_r_delete; by right.
Qed.

Lemma task_key_not_lock s : "revu:task:" +:+ s <> LOCK_KEY /\ "revu:task:" +:+ s <> LOCK_TASK_KEY.
Proof. split; cbv [String.append LOCK_KEY LOCK_TASK_KEY]; intros H; discriminate H. Qed.

Create HintDb lock_only.
#[local] Hint Resolve lock_only_ret lock_only_raise lock_only_lift lock_only_bind
  lock_only_try_except lock_only_try_pass lock_only_release : lock_only.

Lemma lock_only_task_get s : lock_only (r_get ("revu:task:" +:+ s)).
Proof. apply lock_only_r_get; apply task_key_not_lock. Qed.
#[local] Hint Resolve lock_only_task_get : lock_only.

Lemma lock_only_persist_result j result : lock_only (persist_result j result).
Proof.
  unfold persist_result, owner_key, url_key.
  apply lock_only_try_pass. destruct (json_truthy result); eauto 10 with lock_only.
Qed.
#[local] Hint Resolve lock_only_persist_result : lock_only.

Lemma lock_only_get_if result k : lock_only (get_if result k).
Proof. unfold get_if. destruct (json_truthy result); auto with lock_only. Qed.
#[local] Hint Resolve lock_only_get_if : lock_only.

Lemma lock_only_status_success j : lock_only (status_success j).
Proof. unfold status_success, result_key. eauto 20 with lock_only. Qed.

Lemma lock_only_status_closed st j meta : lock_only (status_closed st j meta).
Proof. unfold status_closed. eauto 20 with lock_only. Qed.

Lemma bind_ret {A B} (a : A) (k : A -> M B) E w : bindM (ret a) k E w = k a E w.
Proof. reflexivity. Qed.

Lemma terminal_poll_sim j m t s E1 E2 w1 w2 :
  fails E1 = fails E2 -> same_but_lock w1 w2 ->
  kv w1 !! meta_key j = Some (VJson m, t) ->
  jget m "state" JNull = inr (JStr s) -> is_terminal s = true ->
  snd (scrape_status j E1 w1) = snd (scrape_status j E2 w2) /\
  same_but_lock (fst (scrape_status j E1 w1)) (fst (scrape_status j E2 w2)) /\
  same_but_lock w1 (fst (scrape_status j E1 w1)).
Proof.
  intros Hf Hw Hm1 Hs Ht.
  assert (Hm2 : kv w2 !! meta_key j = Some (VJson m, t)).
  { rewrite <- Hw; [done|apply task_key_not_lock..]. }
  unfold scrape_status.
  destruct (fails E2 (OGet (meta_key j))) eqn:Hg.
  - rewrite (bind_exc _ _ E1 w1 w1 (HTTPException 503)),
            (bind_exc _ _ E2 w2 w2 (HTTPException 503));
      [|unfold try_except, r_get, guarded; rewrite ?Hf, Hg; reflexivity..].
    split; [done|]. split; [done|]. apply same_but_lock_refl.
  - rewrite (bind_ok _ _ E1 w1 w1 (Some (VJson m))), (bind_ok _ _ E2 w2 w2 (Some (VJson m)));
      [|unfold try_except, r_get, guarded; rewrite ?Hf, Hg, ?Hm1, ?Hm2; reflexivity..].
    cbv beta iota.
    unfold val_truthy, parse_meta, json_loads. rewrite Hs. cbn [lift]. rewrite !bind_ret.
    unfold is_terminal in Ht.
    destruct (String.eqb_spec s "SUCCESS") as [->|H1];
      [exact (lock_only_status_success j E1 E2 w1 w2 Hf Hw)|].
    destruct (String.eqb_spec s "FAILURE") as [->|H2];
      [exact (lock_only_status_closed "FAILURE" j m E1 E2 w1 w2 Hf Hw)|].
    destruct (String.eqb_spec s "REVOKED") as [->|H3];
      [exact (lock_only_status_closed "REVOKED" j m E1 E2 w1 w2 Hf Hw)|].
    discriminate Ht.
Qed.

(** C8.  When job [j]'s meta key holds an envelope whose state [s] is
    terminal (SUCCESS, FAILURE or REVOKED), a second [scrape_status] call,
    made on the store the first call left behind and under the same fault
    pattern, returns exactly the same response (state, progress, result,
    count, product and error) or the same error: the first call changes only
    the lock keys, which the terminal branches never read. *)
Theorem terminal_poll_idempotent E E' w j m t s :
  fails E = fails E' ->
  kv w !! meta_key j = Some (VJson m, t) ->
  jget m "state" JNull = inr (JStr s) -> is_terminal s = true ->
  snd (run (scrape_status j) E' (fst (run (scrape_status j) E w)))
    = snd (run (scrape_status j) E w).
Proof.
  intros Hf Hm Hs Ht. unfold run.
  destruct (terminal_poll_sim j m t s E E w w eq_refl (same_but_lock_refl w) Hm Hs Ht)
    as (_ & _ & Hfr).
  assert (Hm' : kv (fst (scrape_status j E w)) !! meta_key j = Some (VJson m, t)).
  { rewrite <- Hfr; [done|apply task_key_not_lock..]. }
  destruct (terminal_poll_sim j m t s E' E (fst (scrape_status j E w)) w
              (eq_sym Hf) (same_but_lock_sym _ _ Hfr) Hm' Hs Ht) as (Hr & _).
  exact Hr.
Qed.

Lemma terminal_poll_idempotent_witness :
  snd (run (scrape_status "A") env0 (fst (run (scrape_status "A") env0 world_success_result)))
    = snd (run (scrape_status "A") env0 world_success_result).
Proof.
  apply (terminal_poll_idempotent env0 env0 world_success_result "A" success_env
           (Some META_TTL) "SUCCESS"); reflexivity.
Defined.

(** ** C9: lock reinforcement at task start. *)

(** C9 (counterexample).  The lock is held with 5 seconds left and its owner
    key records task B.  Task T starts: the owner key now records T with a
    fresh TTL, but the lock key keeps its 5-second TTL. *)
Lemma reinforce_keeps_lock_ttl :
  kv (fst (run (reinforce_lock 3600 "T") env0 world_lock_B_short)) !! LOCK_KEY
    = Some (VStr "1", Some 5) /\
  kv (fst (run (reinforce_lock 3600 "T") env0 world_lock_B_short)) !! LOCK_TASK_KEY
    = Some (VStr "T", Some 3600).
Proof. vm_compute. split; reflexivity. Qed.

(** C9 (amended).  With a working store, task start writes the owner key
    with its own task id and a fresh TTL whatever it held before; it writes
    the lock key (with a fresh TTL) only when it is absent, and leaves an
    existing lock key and its TTL as they are; no other key changes. *)
Theorem reinforce_lock_overwrites_owner E w lock_ttl tid :
  (forall o, fails E o = false) ->
  snd (run (reinforce_lock lock_ttl tid) E w) = Ok tt /\
  kv (fst (run (reinforce_lock lock_ttl tid) E w)) !! LOCK_TASK_KEY
    = Some (VStr tid, Some lock_ttl) /\
  kv (fst (run (reinforce_lock lock_ttl tid) E w)) !! LOCK_KEY
    = Some (match kv w !! LOCK_KEY with Some e => e | None => (VStr "1", Some lock_ttl) end) /\
  (forall k, k <> LOCK_KEY -> k <> LOCK_TASK_KEY ->
     kv (fst (run (reinforce_lock lock_ttl tid) E w)) !! k = kv w !! k).
Proof.
  intros Hf. pose proof lock_keys_ne as Hne.
  unfold run, reinforce_lock, r_exists, r_set.
  destruct (kv w !! LOCK_KEY) as [e|] eqn:Hl; crunch Hf; rewrite ?Hl; crunch Hf.
  - split; [done|]. split; [done|].
    split; [rewrite lookup_insert_ne by done; done|].
    intros k Hk1 Hk2. by rewrite lookup_insert_ne.
  - split; [done|]. split; [done|].
    split; [rewrite lookup_insert_ne by done; by rewrite lookup_insert_eq|].
    intros k Hk1 Hk2. by rewrite !lookup_insert_ne.
Qed.

Lemma reinforce_lock_overwrites_owner_witness :
  snd (run (reinforce_lock 3600 "T") env0 world_lock_B_short) = Ok tt /\
  kv (fst (run (reinforce_lock 3600 "T") env0 world_lock_B_short)) !! LOCK_TASK_KEY
    = Some (VStr "T", Some 3600) /\
  kv (fst (run (reinforce_lock 3600 "T") env0 world_lock_B_short)) !! LOCK_KEY
    = Some (match kv world_lock_B_short !! LOCK_KEY with
            | Some e => e | None => (VStr "1", Some 3600) end) /\
  (forall k, k <> LOCK_KEY -> k <> LOCK_TASK_KEY ->
     kv (fst (run (reinforce_lock 3600 "T") env0 world_lock_B_short)) !! k
       = kv world_lock_B_short !! k).
Proof. apply (reinforce_lock_overwrites_owner env0 world_lock_B_short 3600 "T"). reflexivity. Defined.

(** ** C10: cancel accepts any job id. *)

(** C10.  For every job id and every store state and fault pattern,
    [cancel_scrape] raises 503 exactly when the cancel-flag write fails and
    otherwise answers [{job_id, cancel_requested: true}]: failures of the
    revoke, of the optimistic meta write and of the lock deletion are
    swallowed. *)
Theorem cancel_scrape_response E w j :
  snd (run (cancel_scrape j) E w)
    = if fails E (OSet (cancel_key j)) then Exc (HTTPException 503)
      else Ok (mkCancel j true).
Proof.
  unfold run, cancel_scrape, release_lock_unchecked.
  destruct (fails E (OSet (cancel_key j))) eqn:Hc.
  - erewrite bind_exc; [reflexivity|].
    unfold try_except, bindM, r_set, guarded. rewrite Hc. reflexivity.
  - erewrite bind_ok; [|unfold try_except, bindM, r_set, guarded; rewrite Hc; reflexivity].
    rewrite !bind_try_pass. reflexivity.
Qed.

(** * Further properties of the code. *)

Lemma task_keys_ne j a b :
  a <> b -> "revu:task:" +:+ j +:+ a <> "revu:task:" +:+ j +:+ b.
Proof. intros Hab H. apply Hab. by do 2 apply (inj (String.app _)) in H. Qed.

Ltac keys_ne :=
  unfold meta_key, result_key, cancel_key, owner_key, url_key;
  first [ exact (proj1 (task_key_not_lock _))
        | exact (proj2 (task_key_not_lock _))
        | apply not_eq_sym; exact (proj1 (task_key_not_lock _))
        | apply not_eq_sym; exact (proj2 (task_key_not_lock _))
        | exact lock_keys_ne
        | apply not_eq_sym; exact lock_keys_ne
        | apply task_keys_ne; discriminate
        | done
        | by apply not_eq_sym ].

Ltac kv_simp :=
  repeat match goal with
  | |- context [<[?i:=?x]> ?m !! ?i] => rewrite (lookup_insert_eq m i x)
  | |- context [<[?i:=?x]> ?m !! ?j] => rewrite (lookup_insert_ne m i j x) by keys_ne
  | |- context [delete ?i ?m !! ?i] => rewrite (lookup_delete_eq m i)
  | |- context [delete ?i ?m !! ?j] => rewrite (lookup_delete_ne m i j) by keys_ne
  end.

(** Whatever the store state and faults, [scrape_lock_status] never changes
    the store, and its only error is HTTP 503. *)
Theorem scrape_lock_status_read_only E w :
  fst (run scrape_lock_status E w) = w /\
  (snd (run scrape_lock_status E w) = Exc (HTTPException 503) \/
   exists r, snd (run scrape_lock_status E w) = Ok r).
Proof.
  unfold run, scrape_lock_status, r_exists, r_get, r_ttl, try_except, bindM, guarded, ret, raise.
  repeat (case_match; simplify_eq/=); eauto.
Qed.

Lemma try_pass_ok (m : M unit) E w : snd (try_pass m E w) = Ok tt.
Proof. unfold try_pass, try_except, ret. by destruct (m E w) as [? [[]|]]. Qed.

(** With a working store, a checkpoint always leaves [PROGRESS pct] in the
    task's meta key. *)
Lemma update_progress_meta E w lock_ttl tid pct :
  (forall o, fails E o = false) ->
  kv (fst (update_progress lock_ttl tid pct E w)) !! meta_key tid
    = Some (VJson (progress_env pct), Some META_TTL).
Proof.
  intros Hf. unfold update_progress. rewrite !bind_try_pass.
  match goal with |- kv (fst (try_pass _ E ?W)) !! _ = _ => generalize W; intros w1 end.
  unfold try_pass, try_except, r_set, r_expire, guarded, bindM, ret, with_kv. rewrite !Hf. simpl.
  repeat (case_match; simplify_eq/=); kv_simp; done.
Qed.

Lemma try_pass_run (m : M unit) E w : try_pass m E w = (fst (try_pass m E w), Ok tt).
Proof. unfold try_pass, try_except, ret. by destruct (m E w) as [? [[]|]]. Qed.

Lemma update_progress_run lock_ttl tid pct E w :
  update_progress lock_ttl tid pct E w = (fst (update_progress lock_ttl tid pct E w), Ok tt).
Proof. unfold update_progress. rewrite !bind_try_pass. apply try_pass_run. Qed.

(** With a working store, the worker's failure handler re-raises the error,
    and a following poll reports FAILURE with progress 0 and the error
    message. *)
Theorem finish_failure_then_poll E w tid msg :
  (forall o, fails E o = false) ->
  snd (run (finish_failure tid msg) E w) = Exc (PyException msg) /\
  snd (run (scrape_status tid) E (fst (run (finish_failure tid msg) E w)))
    = Ok (mkStatus tid "FAILURE" (JNum 0) JNull JNull JNull (ErrJson (JStr msg))).
Proof.
  intros Hf. unfold run, finish_failure.
  unfold release_if_owner, try_pass, try_except, bindM, r_set, r_get, r_delete, guarded, ret,
    raise, with_kv.
  rewrite !Hf. simpl. kv_simp.
  destruct (owner_is (fst <$> kv w !! LOCK_TASK_KEY) tid); simpl; split; try done;
  unfold scrape_status, status_closed, release_lock_unchecked, lift, r_get, r_delete;
  repeat progress (crunch Hf; kv_simp); reflexivity.
Qed.

Lemma finish_failure_then_poll_witness :
  snd (run (finish_failure "T" "No reviews scraped for the provided URL.") env0 world_running_T) = Exc (PyException "No reviews scraped for the provided URL.") /\
  snd (run (scrape_status "T") env0 (fst (run (finish_failure "T" "No reviews scraped for the provided URL.") env0 world_running_T)))
    = Ok (mkStatus "T" "FAILURE" (JNum 0) JNull JNull JNull (ErrJson (JStr "No reviews scraped for the provided URL."))).
Proof.
  apply (finish_failure_then_poll env0 world_running_T "T" "No reviews scraped for the provided URL.");
    first [ intros; reflexivity | reflexivity | eexists; reflexivity
          | apply (bool_decide_unpack _); vm_compute; exact I ].
Defined.

(** The worker checkpoint [_update(pct)] never raises, whatever the store
    and Celery faults and whether or not the cancel flag is set. *)
Theorem update_progress_never_raises E w lock_ttl tid pct :
  snd (run (update_progress lock_ttl tid pct) E w) = Ok tt.
Proof. unfold run. by rewrite update_progress_run. Qed.

(** With a working store, a poll right after the checkpoint [_update(pct)]
    reports PROGRESS with progress [pct], even when the task's cancel flag
    was set. *)
Theorem update_then_poll E w lock_ttl tid pct :
  (forall o, fails E o = false) ->
  snd (run (scrape_status tid) E (fst (run (update_progress lock_ttl tid pct) E w)))
    = Ok (mkStatus tid "PROGRESS" (JNum pct) JNull JNull JNull ErrNone).
Proof.
  intros Hf. unfold run.
  pose proof (update_progress_meta E w lock_ttl tid pct Hf) as Hm. revert Hm.
  generalize (fst (update_progress lock_ttl tid pct E w)); intros w1 Hm.
  unfold scrape_status.
  erewrite bind_ok; [|unfold try_except, r_get, guarded; rewrite Hf, Hm; reflexivity].
  reflexivity.
Qed.

Lemma update_then_poll_witness :
  snd (run (scrape_status "T") env0 (fst (run (update_progress 3600 "T" 40) env0 world_cancel_flagged)))
    = Ok (mkStatus "T" "PROGRESS" (JNum 40) JNull JNull JNull ErrNone).
Proof.
  apply (update_then_poll env0 world_cancel_flagged 3600 "T" 40);
    first [ intros; reflexivity | reflexivity | eexists; reflexivity
          | apply (bool_decide_unpack _); vm_compute; exact I ].
Defined.

(** The worker's owner-checked release leaves the store untouched and raises
    nothing, whatever the faults, when the owner key does not hold this
    task's id. *)
Theorem release_if_owner_foreign E w tid :
  owner_is (fst <$> kv w !! LOCK_TASK_KEY) tid = false ->
  run (release_if_owner tid) E w = (w, Ok tt).
Proof.
  intros Ho. unfold run, release_if_owner, try_pass, try_except, bindM, r_get, guarded, ret.
  destruct (fails E (OGet LOCK_TASK_KEY)); simpl; [done|]. by rewrite Ho.
Qed.

Lemma release_if_owner_foreign_witness :
  run (release_if_owner "A") env0 world_owned_by_B = (world_owned_by_B, Ok tt).
Proof.
  apply (release_if_owner_foreign env0 world_owned_by_B "A");
    first [ intros; reflexivity | reflexivity | eexists; reflexivity
          | apply (bool_decide_unpack _); vm_compute; exact I ].
Defined.

(** With a working store, after [cancel_scrape j] the lock key and owner key
    are gone, and a poll reports REVOKED with error "cancelled by user" and
    the progress the meta key held before (0 when absent or unparsable). *)
Theorem cancel_then_poll E w j :
  (forall o, fails E o = false) ->
  let prog := match fst <$> kv w !! meta_key j with
              | Some v => if val_truthy v then prev_progress v else 0
              | None => 0
              end in
  kv (fst (run (cancel_scrape j) E w)) !! LOCK_KEY = None /\
  kv (fst (run (cancel_scrape j) E w)) !! LOCK_TASK_KEY = None /\
  snd (run (scrape_status j) E (fst (run (cancel_scrape j) E w)))
    = Ok (mkStatus j "REVOKED" (JNum prog) JNull JNull JNull
            (ErrJson (JStr "cancelled by user"))).
Proof.
  intros Hf prog. unfold run, cancel_scrape, import_worker, revoke, release_lock_unchecked,
    r_set, r_get, r_delete.
  repeat progress (crunch Hf; kv_simp).
  fold prog. split; [done|]. split; [done|].
  unfold scrape_status, status_closed, release_lock_unchecked, lift, r_get, r_delete.
  repeat progress (crunch Hf; kv_simp). reflexivity.
Qed.

Lemma cancel_then_poll_witness :
  let prog := match fst <$> kv world_running_T !! meta_key "T" with
              | Some v => if val_truthy v then prev_progress v else 0
              | None => 0
              end in
  kv (fst (run (cancel_scrape "T") env0 world_running_T)) !! LOCK_KEY = None /\
  kv (fst (run (cancel_scrape "T") env0 world_running_T)) !! LOCK_TASK_KEY = None /\
  snd (run (scrape_status "T") env0 (fst (run (cancel_scrape "T") env0 world_running_T)))
    = Ok (mkStatus "T" "REVOKED" (JNum prog) JNull JNull JNull
            (ErrJson (JStr "cancelled by user"))).
Proof.
  apply (cancel_then_poll env0 world_running_T "T");
    first [ intros; reflexivity | reflexivity | eexists; reflexivity
          | apply (bool_decide_unpack _); vm_compute; exact I ].
Defined.

Lemma rate_key_not_lock user day : rate_key user day <> LOCK_KEY /\ rate_key user day <> LOCK_TASK_KEY.
Proof. split; cbv [rate_key String.append LOCK_KEY LOCK_TASK_KEY]; intros H; discriminate H. Qed.

(** The rate check touches only the rate key and submits nothing; it
    passes or answers 429. *)
Lemma rate_check_frame E w limit user day sod :
  submitted (fst (rate_check limit user day sod E w)) = submitted w /\
  (forall k, k <> rate_key user day -> kv (fst (rate_check limit user day sod E w)) !! k = kv w !! k) /\
  (snd (rate_check limit user day sod E w) = Ok tt \/
   snd (rate_check limit user day sod E w) = Exc (HTTPException 429)).
Proof.
  unfold rate_check, r_incr, r_ttl, r_expire, try_pass, try_except, bindM, guarded, ret, raise, with_kv.
  repeat (case_match; simplify_eq/=); (split; [done|]); (split; [intros k Hk; kv_simp; done|]); auto.
Qed.

(** While the lock key exists (and the SET NX itself succeeds),
    [start_scrape] submits no task, leaves the lock key and owner key as
    they were, and answers 409, or 429 when the rate limit refuses first. *)
Theorem start_scrape_refused_when_locked E w limit user day sod :
  fails E (OSet LOCK_KEY) = false -> is_Some (kv w !! LOCK_KEY) ->
  submitted (fst (run (start_scrape limit user day sod) E w)) = submitted w /\
  kv (fst (run (start_scrape limit user day sod) E w)) !! LOCK_KEY = kv w !! LOCK_KEY /\
  kv (fst (run (start_scrape limit user day sod) E w)) !! LOCK_TASK_KEY = kv w !! LOCK_TASK_KEY /\
  (snd (run (start_scrape limit user day sod) E w) = Exc (HTTPException 409) \/
   snd (run (start_scrape limit user day sod) E w) = Exc (HTTPException 429)).
Proof.
  intros Hs [e He]. unfold run, start_scrape.
  destruct (rate_check_frame E w limit user day sod) as (Hsub & Hkv & [Hr|Hr]);
  destruct (rate_check limit user day sod E w) as [w1 r] eqn:Hrc; simpl in *; subst r.
  - rewrite (bind_ok _ _ E w w1 tt) by exact Hrc.
    assert (He1 : kv w1 !! LOCK_KEY = Some e).
    { rewrite Hkv; [done|]. apply not_eq_sym, rate_key_not_lock. }
    unfold lock_and_submit, r_set, bindM, guarded. rewrite Hs, He1. simpl.
    rewrite !Hkv; [auto|apply not_eq_sym, rate_key_not_lock..].
  - rewrite (bind_exc _ _ E w w1 (HTTPException 429)) by exact Hrc. simpl.
    rewrite !Hkv; [auto|apply not_eq_sym, rate_key_not_lock..].
Qed.

Lemma start_scrape_refused_when_locked_witness :
  submitted (fst (run (start_scrape 3 "u1" "20261016" 3600) env0 world_owned_by_B)) = submitted world_owned_by_B /\
  kv (fst (run (start_scrape 3 "u1" "20261016" 3600) env0 world_owned_by_B)) !! LOCK_KEY = kv world_owned_by_B !! LOCK_KEY /\
  kv (fst (run (start_scrape 3 "u1" "20261016" 3600) env0 world_owned_by_B)) !! LOCK_TASK_KEY = kv world_owned_by_B !! LOCK_TASK_KEY /\
  (snd (run (start_scrape 3 "u1" "20261016" 3600) env0 world_owned_by_B) = Exc (HTTPException 409) \/
   snd (run (start_scrape 3 "u1" "20261016" 3600) env0 world_owned_by_B) = Exc (HTTPException 429)).
Proof.
  apply (start_scrape_refused_when_locked env0 world_owned_by_B 3 "u1" "20261016" 3600);
    first [ intros; reflexivity | reflexivity | eexists; reflexivity
          | apply (bool_decide_unpack _); vm_compute; exact I ].
Defined.

Lemma filter_list_go_sub lst drop seen x :
  x ∈ map str_lower (filter_list_go lst drop seen) -> x ∈ map str_lower lst /\ x ∉ drop.
Proof.
  revert seen. induction lst as [|w l IH]; intros seen; simpl; [set_solver|].
  destruct (decide (str_lower w ∈ drop)); [intros H; apply IH in H; set_solver|].
  destruct (decide (str_lower w ∈ seen)); [intros H; apply IH in H; set_solver|].
  simpl. intros [->|H]%elem_of_cons; [set_solver|]. apply IH in H. set_solver.
Qed.

(** After the theme de-duplication, no theme appears (case-insensitively) on
    both the positive and the negative side. *)
Theorem dedup_themes_disjoint pt nt px nx t :
  t ∈ map str_lower (dedup_themes pt nt px nx).1 ->
  t ∉ map str_lower (dedup_themes pt nt px nx).2.
Proof.
  unfold dedup_themes. case_decide as Hov; simpl.
  - intros Hp Hn. assert (t ∈ (list_to_set (map str_lower pt) : gset string) ∩
                              list_to_set (map str_lower nt)) by set_solver.
    set_solver.
  - intros [Hp Hdp]%filter_list_go_sub [Hn Hdn]%filter_list_go_sub.
    rewrite elem_of_filter in Hdp, Hdn.
    assert (Ht : t ∈ (list_to_set (map str_lower pt) : gset string) ∩
                   list_to_set (map str_lower nt)) by set_solver.
    destruct (decide (default 0 (count_tokens px (list_to_set (map str_lower pt) ∩ list_to_set (map str_lower nt)) !! t)
                 < default 0 (count_tokens nx (list_to_set (map str_lower pt) ∩ list_to_set (map str_lower nt)) !! t))); tauto.
Qed.

Lemma dedup_themes_disjoint_witness :
  "battery" ∉ map str_lower (dedup_themes ["Battery"; "good"; "battery"] ["battery"; "bad"; "Good"] ["battery battery great"; "good"] ["battery"; "not good, good-ish good"]).2.
Proof.
  apply (dedup_themes_disjoint ["Battery"; "good"; "battery"] ["battery"; "bad"; "Good"] ["battery battery great"; "good"] ["battery"; "not good, good-ish good"] "battery");
    first [ intros; reflexivity | reflexivity | eexists; reflexivity
          | apply (bool_decide_unpack _); vm_compute; exact I ].
Defined.

Lemma filter_list_go_keep lst drop seen x :
  x ∉ drop -> x ∈ map str_lower lst ->
  x ∈ map str_lower (filter_list_go lst drop seen) \/ x ∈ seen.
Proof.
  revert seen. induction lst as [|w l IH]; intros seen Hd; simpl; [set_solver|].
  intros [->|Hx]%elem_of_cons.
  - destruct (decide (str_lower w ∈ drop)); [done|].
    destruct (decide (str_lower w ∈ seen)); [by right|]. left. simpl. set_solver.
  - destruct (decide (str_lower w ∈ drop)); [by apply IH|].
    destruct (decide (str_lower w ∈ seen)); [by apply IH|].
    destruct (IH ({[str_lower w]} ∪ seen) Hd Hx) as [H|H]; simpl; set_solver.
Qed.

Lemma filter_list_go_nodup lst drop seen :
  NoDup (map str_lower (filter_list_go lst drop seen)) /\
  (forall x, x ∈ map str_lower (filter_list_go lst drop seen) -> x ∉ seen).
Proof.
  revert seen. induction lst as [|w l IH]; intros seen; simpl.
  - split; [constructor|set_solver].
  - destruct (decide (str_lower w ∈ drop)); [apply IH|].
    destruct (decide (str_lower w ∈ seen)); [apply IH|].
    destruct (IH ({[str_lower w]} ∪ seen)) as [Hnd Hs]. simpl. split.
    + constructor; [|done]. intros H. apply Hs in H. set_solver.
    + intros x [->|Hx]%elem_of_cons; [done|]. apply Hs in Hx. set_solver.
Qed.

(** When some theme is on both sides, the de-duplication also removes case-
    insensitive repeats within each side. *)
Theorem dedup_themes_nodup pt nt px nx :
  (list_to_set (map str_lower pt) : gset string) ∩ list_to_set (map str_lower nt) ≠ ∅ ->
  NoDup (map str_lower (dedup_themes pt nt px nx).1) /\
  NoDup (map str_lower (dedup_themes pt nt px nx).2).
Proof.
  intros Hov. unfold dedup_themes. case_decide; [done|]. simpl.
  split; apply filter_list_go_nodup.
Qed.

Lemma dedup_themes_nodup_witness :
  NoDup (map str_lower (dedup_themes ["Battery"; "good"; "battery"] ["battery"; "bad"; "Good"] ["battery battery great"; "good"] ["battery"; "not good, good-ish good"]).1) /\
  NoDup (map str_lower (dedup_themes ["Battery"; "good"; "battery"] ["battery"; "bad"; "Good"] ["battery battery great"; "good"] ["battery"; "not good, good-ish good"]).2).
Proof.
  apply (dedup_themes_nodup ["Battery"; "good"; "battery"] ["battery"; "bad"; "Good"] ["battery battery great"; "good"] ["battery"; "not good, good-ish good"]);
    first [ intros; reflexivity | reflexivity | eexists; reflexivity
          | apply (bool_decide_unpack _); vm_compute; exact I ].
Defined.

(** A theme on both sides is kept on the positive side exactly when its
    count in the positive texts is at least its count in the negative texts,
    and on the negative side otherwise. *)
Theorem dedup_themes_keeps_side pt nt px nx t :
  t ∈ map str_lower pt -> t ∈ map str_lower nt ->
  let overlap : gset string := list_to_set (map str_lower pt) ∩ list_to_set (map str_lower nt) in
  let p := default 0 (count_tokens px overlap !! t) in
  let n := default 0 (count_tokens nx overlap !! t) in
  (t ∈ map str_lower (dedup_themes pt nt px nx).1 <-> ~ (p < n)) /\
  (t ∈ map str_lower (dedup_themes pt nt px nx).2 <-> p < n).
Proof.
  intros Hp Hn overlap p n.
  assert (Ht : t ∈ overlap) by (unfold overlap; set_solver).
  subst p n. unfold dedup_themes. fold overlap. case_decide as Hov; [set_solver|]. simpl.
  split; split.
  - intros [_ Hd]%filter_list_go_sub. rewrite elem_of_filter in Hd. tauto.
  - intros Hpn. destruct (filter_list_go_keep pt (filter (fun t => default 0 (count_tokens px overlap !! t) < default 0 (count_tokens nx overlap !! t)) overlap) ∅ t) as [H|H]; [|done|done|set_solver].
    rewrite elem_of_filter. tauto.
  - intros [_ Hd]%filter_list_go_sub. rewrite elem_of_filter in Hd. match goal with |- ?a < ?b => destruct (decide (a < b)); tauto end.
  - intros Hpn. destruct (filter_list_go_keep nt (filter (fun t => ~ (default 0 (count_tokens px overlap !! t) < default 0 (count_tokens nx overlap !! t))) overlap) ∅ t) as [H|H]; [|done|done|set_solver].
    rewrite elem_of_filter. tauto.
Qed.

Lemma dedup_themes_keeps_side_witness :
  let overlap : gset string := list_to_set (map str_lower ["Battery"; "good"; "battery"]) ∩ list_to_set (map str_lower ["battery"; "bad"; "Good"]) in
  let p := default 0 (count_tokens ["battery battery great"; "good"] overlap !! "good") in
  let n := default 0 (count_tokens ["battery"; "not good, good-ish good"] overlap !! "good") in
  ("good" ∈ map str_lower (dedup_themes ["Battery"; "good"; "battery"] ["battery"; "bad"; "Good"] ["battery battery great"; "good"] ["battery"; "not good, good-ish good"]).1 <-> ~ (p < n)) /\
  ("good" ∈ map str_lower (dedup_themes ["Battery"; "good"; "battery"] ["battery"; "bad"; "Good"] ["battery battery great"; "good"] ["battery"; "not good, good-ish good"]).2 <-> p < n).
Proof.
  apply (dedup_themes_keeps_side ["Battery"; "good"; "battery"] ["battery"; "bad"; "Good"] ["battery battery great"; "good"] ["battery"; "not good, good-ish good"] "good");
    first [ intros; reflexivity | reflexivity | eexists; reflexivity
          | apply (bool_decide_unpack _); vm_compute; exact I ].
Defined.

Lemma flush_nonempty w : w <> [] -> flush w = [w].
Proof. by destruct w. Qed.

Lemma py_split_go_word w rest cur :
  no_space w = true -> py_split_go (w ++ rest)%list cur = py_split_go rest (cur ++ w)%list.
Proof.
  revert cur. induction w as [|c w IH]; intros cur Hw.
  - by rewrite app_nil_r.
  - simpl in Hw. apply andb_prop in Hw as [Hc Hw]. apply negb_true_iff in Hc.
    simpl. rewrite Hc, IH by done. by rewrite <- app_assoc.
Qed.

Lemma py_split_go_space rest cur :
  py_split_go (32 :: rest) cur = (flush cur ++ py_split_go rest [])%list.
Proof. reflexivity. Qed.

Lemma py_split_go_join w ws cur :
  is_word w -> Forall is_word ws ->
  py_split_go (py_join [32] (w :: ws)) cur = (cur ++ w)%list :: ws.
Proof.
  revert w cur. induction ws as [|w2 ws IH]; intros w cur [Hne Hw] Hws.
  - simpl. rewrite <- (app_nil_r w) at 1. rewrite py_split_go_word by done. simpl.
    apply flush_nonempty. intros H. apply app_eq_nil in H as [_ H]. done.
  - inversion Hws as [|? ? Hw2 Hws']; subst.
    change (py_join [32] (w :: w2 :: ws)) with (w ++ 32 :: py_join [32] (w2 :: ws))%list.
    rewrite py_split_go_word by done. rewrite py_split_go_space.
    rewrite flush_nonempty by (intros H; apply app_eq_nil in H as [_ H]; done).
    rewrite IH by done. done.
Qed.

Lemma py_split_join ws : Forall is_word ws -> py_split (py_join [32] ws) = ws.
Proof.
  destruct ws as [|w ws]; [done|]. intros Hws. inversion Hws; subst.
  unfold py_split. by rewrite py_split_go_join.
Qed.

Lemma flush_words cur : no_space cur = true -> Forall is_word (flush cur).
Proof. destruct cur as [|c cur]; [constructor|]. intros H. repeat constructor; done. Qed.

Lemma py_split_go_words s cur :
  no_space cur = true -> Forall is_word (py_split_go s cur).
Proof.
  revert cur. induction s as [|c s IH]; intros cur Hcur; simpl.
  - by apply flush_words.
  - destruct (py_space c) eqn:Hc.
    + apply Forall_app. split; [by apply flush_words | by apply IH].
    + apply IH. unfold no_space. rewrite forallb_app. fold (no_space cur).
      rewrite Hcur. simpl. by rewrite Hc.
Qed.

Lemma py_split_words s : Forall is_word (py_split s).
Proof. by apply py_split_go_words. Qed.

Lemma truncate_name_split s :
  exists s', truncate_name (Some s) = Some s' /\
    py_split s' = take 5 (py_split s) /\
    ((length (py_split s) <= 5)%nat -> s' = s).
Proof.
  destruct s as [|c s0].
  - by exists [].
  - remember (c :: s0) as s eqn:Hs.
    assert (Ht : truncate_name (Some s) =
                 if (length (py_split s) <=? 5)%nat then Some s
                 else Some (py_join [32] (take 5 (py_split s)))) by (by subst s).
    rewrite Ht. clear Ht Hs.
    destruct (Nat.leb_spec (length (py_split s)) 5) as [Hl|Hl].
    + exists s. split; [done|]. split; [|done]. by rewrite take_ge by lia.
    + eexists. split; [done|]. split; [|lia].
      apply py_split_join, Forall_take, py_split_words.
Qed.

(** [_truncate_name] keeps the first five words of a product name: the words
    of the result are the first five words of the input, and a name of at
    most five words is returned as is. *)
Theorem truncate_name_words s :
  exists s', truncate_name (Some s) = Some s' /\
    py_split s' = take 5 (py_split s) /\
    ((length (py_split s) <= 5)%nat -> s' = s).
Proof. apply truncate_name_split. Qed.

(** Truncating a product name twice gives the same result as truncating it
    once. *)
Theorem truncate_name_idempotent name :
  truncate_name (truncate_name name) = truncate_name name.
Proof.
  destruct name as [s|]; [|done].
  destruct (truncate_name_split s) as (s' & Hs' & Hw & Hle). rewrite Hs'.
  destruct (truncate_name_split s') as (s'' & Hs'' & Hw' & Hle'). rewrite Hs''.
  f_equal. apply Hle'. rewrite Hw, length_take. lia.
Qed.
